(** * CspTrustedSiteForm and ExternalClientAppForm: a shallow embedding

    The Lightning web component [CspTrustedSiteForm] keeps the Trusted URLs of
    the flexipage in step with a list of three named sites.  Its wire handler
    [wiredResources] receives the existing Trusted URLs and derives the flags
    the template reads; [handleSubmit] creates the sites the admin asked for.

    The component instance ([this]) is a record, one field per class field.
    Methods run in a small monad that threads the instance, records what the
    component does to the platform (toasts, console messages, Apex calls) in
    the order it does it, and carries JavaScript exceptions. *)

From Stdlib Require Import String List ZArith Bool Lia.
From Stdlib Require DecimalString DecimalPos DecimalZ.
Import ListNotations.
Open Scope string_scope.

(** ** JavaScript primitives used by the controllers

    Strings are sequences of characters; the identifiers and names the
    controllers handle are ASCII, where a character is one code unit. *)

Module Js.

(** Truthiness of a string: only the empty string is falsy. *)
Definition truthy (s : string) : bool :=
  match s with EmptyString => false | String _ _ => true end.

(** [Array.prototype.includes] on an array of strings. *)
Definition includes (l : list string) (x : string) : bool :=
  existsb (String.eqb x) l.

(** [Array.prototype.some] and [Array.prototype.every]. *)
Definition some {A} (l : list A) (p : A -> bool) : bool := existsb p l.
Definition every {A} (l : list A) (p : A -> bool) : bool := forallb p l.

(** [Array.prototype.join]: [undefined] elements are rendered as the empty
    string. *)
Definition join (l : list (option string)) (sep : string) : string :=
  String.concat sep
    (map (fun x => match x with Some s => s | None => "" end) l).

(** [String.prototype.slice(start, end)]: a negative index counts from the
    end of the string, and both indices are clamped to [0, length]. *)
Definition clamp (len i : Z) : Z :=
  if (i <? 0)%Z then Z.max (len + i) 0 else Z.min i len.

Definition slice (s : string) (start stop : Z) : string :=
  let len := Z.of_nat (String.length s) in
  let from := clamp len start in
  let to := clamp len stop in
  substring (Z.to_nat from) (Z.to_nat (Z.max (to - from) 0)) s.

End Js.

(** ** Data *)

Definition UI_CONNECTOR : string := "ui_connector".
Definition UI_CONNECTOR_WSS : string := "ui_connector_wss".
Definition TWILIO_FLEX : string := "twilio_flex".

(** One element of [CSPList].  [IsActive] is the platform's Boolean (the
    data table shows it in a column of type boolean); [!csp.IsActive] is
    [negb]. *)
Record Csp : Type := mkCsp {
  Id : string;
  DeveloperName : string;
  EndpointUrl : string;
  IsActive : bool
}.

(** The [body] property of a value caught by [catch (error)].  The
    elements of an array body are objects, as the platform sends them. *)
Record BodyElem : Type := mkBodyElem {
  elem_message : option string      (* [e.message]; [None] is [undefined] *)
}.

Inductive ErrorBody : Type :=
| BodyUndefined                      (* [body] is undefined or null *)
| BodyArray (elems : list BodyElem)  (* [Array.isArray(error.body)] *)
| BodyObject (message : option string).
    (* any other body; [Some s] when [typeof error.body.message] is
       "string", [None] otherwise *)

(** A thrown value: a rejection value with its body, or the [TypeError] the
    engine raises when a property of [undefined] is read. *)
Inductive JsError : Type :=
| ErrorValue (b : ErrorBody)
| TypeError.

Definition body (error : JsError) : ErrorBody :=
  match error with
  | ErrorValue b => b
  | TypeError => BodyUndefined
  end.

(** What the wire adapter hands to [wiredResources]: [{ data, error }].
    [data = None] stands for a value that is not an array. *)
Record WireResult : Type := mkWireResult {
  data : option (list Csp);
  error : option JsError
}.

(** The fields of the class [CspTrustedSiteForm]. *)
Record Component : Type := mkComponent {
  isLoading : bool;
  uiConnector : string;
  uiConnectorWss : string;
  inactiveTrustedUrlNames : list string;
  csps : list Csp;
  checkboxGroupValue : list string;
  isUIConnectorFieldVisible : bool;
  isUIConnectorWSFieldVisible : bool;
  isTwilioFlexFieldVisible : bool;
  isDataTableVisible : bool;
  isApplyBtnDisabled : bool;
  __wiredResult : option WireResult
}.

(** The field initialisers of the class. *)
Definition initial : Component := {|
  isLoading := false;
  uiConnector := "";
  uiConnectorWss := "";
  inactiveTrustedUrlNames := [];
  csps := [];
  checkboxGroupValue := [];
  isUIConnectorFieldVisible := true;
  isUIConnectorWSFieldVisible := true;
  isTwilioFlexFieldVisible := true;
  isDataTableVisible := false;
  isApplyBtnDisabled := false;
  __wiredResult := None
|}.

(** What the component does to the outside, in the order it does it. *)
Inductive Effect : Type :=
| ShowToastEvent (title message : string) (variant : option string)
| ConsoleError (text : string)
| CreateTrustedSite (siteUrl siteName : string)
| RefreshApex (handle : option WireResult)
| VerifySalesforceDomainCSP.

(** ** The monad of the methods *)

Record World : Type := mkWorld {
  this : Component;
  events : list Effect
}.

Inductive Completion (A : Type) : Type :=
| Normal (a : A)
| Throw (e : JsError).
Arguments Normal {A} a.
Arguments Throw {A} e.

Definition M (A : Type) : Type := World -> Completion A * World.

Definition ret {A} (a : A) : M A := fun w => (Normal a, w).

Definition bind {A B} (m : M A) (k : A -> M B) : M B :=
  fun w =>
    match m w with
    | (Normal a, w') => k a w'
    | (Throw e, w') => (Throw e, w')
    end.

Definition throw {A} (e : JsError) : M A := fun w => (Throw e, w).

Declare Scope js_scope.
Delimit Scope js_scope with js.
Notation "x <- m ;; k" := (bind m (fun x => k))
  (at level 61, m at next level, right associativity) : js_scope.
Notation "m ;; k" := (bind m (fun _ => k))
  (at level 61, right associativity) : js_scope.
Open Scope js_scope.

(** [try { body } catch (error) { handler } finally { cleanup }]: the
    cleanup runs on every path, and an exception of the handler still
    leaves the statement once the cleanup has run. *)
Definition try_catch_finally {A} (body_ : M A) (handler : JsError -> M A)
    (cleanup : M unit) : M A :=
  fun w =>
    let '(r, w1) :=
      match body_ w with
      | (Normal a, w') => (Normal a, w')
      | (Throw e, w') => handler e w'
      end in
    match cleanup w1 with
    | (Normal _, w2) => (r, w2)
    | (Throw e, w2) => (Throw e, w2)
    end.

Definition get {A} (field : Component -> A) : M A :=
  fun w => (Normal (field (this w)), w).

Definition modify (f : Component -> Component) : M unit :=
  fun w => (Normal tt, mkWorld (f (this w)) (events w)).

Definition emit (e : Effect) : M unit :=
  fun w => (Normal tt, mkWorld (this w) (events w ++ [e])%list).

Definition when (b : bool) (m : M unit) : M unit :=
  if b then m else ret tt.

(** A loop over an array whose body updates a local accumulator. *)
Fixpoint forEach {A S} (l : list A) (f : S -> A -> M S) (acc : S) : M S :=
  match l with
  | [] => ret acc
  | x :: l' => acc' <- f acc x ;; forEach l' f acc'
  end.

(** Running a method on an instance, from an empty record of effects. *)
Definition run {A} (m : M A) (c : Component) : Completion A * World :=
  m (mkWorld c []).

Definition this_after {A} (m : M A) (c : Component) : Component :=
  this (snd (run m c)).

Definition events_of {A} (m : M A) (c : Component) : list Effect :=
  events (snd (run m c)).

Definition completion_of {A} (m : M A) (c : Component) : Completion A :=
  fst (run m c).

(** ** Assignments to the fields of [this]

    [with_f v c] is [c] with field [f] set to [v]; [set_f v] is the
    assignment [this.f = v]. *)

Definition with_isLoading (v : bool) (c : Component) : Component :=
  mkComponent v (uiConnector c) (uiConnectorWss c)
    (inactiveTrustedUrlNames c) (csps c) (checkboxGroupValue c)
    (isUIConnectorFieldVisible c) (isUIConnectorWSFieldVisible c)
    (isTwilioFlexFieldVisible c) (isDataTableVisible c)
    (isApplyBtnDisabled c) (__wiredResult c).

Definition set_isLoading (v : bool) : M unit :=
  modify (with_isLoading v).

Definition with_uiConnector (v : string) (c : Component) : Component :=
  mkComponent (isLoading c) v (uiConnectorWss c)
    (inactiveTrustedUrlNames c) (csps c) (checkboxGroupValue c)
    (isUIConnectorFieldVisible c) (isUIConnectorWSFieldVisible c)
    (isTwilioFlexFieldVisible c) (isDataTableVisible c)
    (isApplyBtnDisabled c) (__wiredResult c).

Definition set_uiConnector (v : string) : M unit :=
  modify (with_uiConnector v).

Definition with_uiConnectorWss (v : string) (c : Component) : Component :=
  mkComponent (isLoading c) (uiConnector c) v
    (inactiveTrustedUrlNames c) (csps c) (checkboxGroupValue c)
    (isUIConnectorFieldVisible c) (isUIConnectorWSFieldVisible c)
    (isTwilioFlexFieldVisible c) (isDataTableVisible c)
    (isApplyBtnDisabled c) (__wiredResult c).

Definition set_uiConnectorWss (v : string) : M unit :=
  modify (with_uiConnectorWss v).

Definition pushed_inactiveTrustedUrlNames (v : string) (c : Component) : Component :=
  mkComponent (isLoading c) (uiConnector c)
    (uiConnectorWss c) (inactiveTrustedUrlNames c ++ [v])%list (csps c)
    (checkboxGroupValue c)
    (isUIConnectorFieldVisible c) (isUIConnectorWSFieldVisible c)
    (isTwilioFlexFieldVisible c) (isDataTableVisible c)
    (isApplyBtnDisabled c) (__wiredResult c).

Definition push_inactiveTrustedUrlNames (v : string) : M unit :=
  modify (pushed_inactiveTrustedUrlNames v).

Definition with_csps (v : list Csp) (c : Component) : Component :=
  mkComponent (isLoading c) (uiConnector c)
    (uiConnectorWss c) (inactiveTrustedUrlNames c) v
    (checkboxGroupValue c)
    (isUIConnectorFieldVisible c) (isUIConnectorWSFieldVisible c)
    (isTwilioFlexFieldVisible c) (isDataTableVisible c)
    (isApplyBtnDisabled c) (__wiredResult c).

Definition set_csps (v : list Csp) : M unit :=
  modify (with_csps v).

Definition with_checkboxGroupValue (v : list string) (c : Component) : Component :=
  mkComponent (isLoading c) (uiConnector c)
    (uiConnectorWss c) (inactiveTrustedUrlNames c) (csps c) v
    (isUIConnectorFieldVisible c) (isUIConnectorWSFieldVisible c)
    (isTwilioFlexFieldVisible c) (isDataTableVisible c)
    (isApplyBtnDisabled c) (__wiredResult c).

Definition set_checkboxGroupValue (v : list string) : M unit :=
  modify (with_checkboxGroupValue v).

Definition with_isUIConnectorFieldVisible (v : bool) (c : Component) : Component :=
  mkComponent (isLoading c) (uiConnector c)
    (uiConnectorWss c) (inactiveTrustedUrlNames c) (csps c)
    (checkboxGroupValue c)
    v (isUIConnectorWSFieldVisible c)
    (isTwilioFlexFieldVisible c) (isDataTableVisible c)
    (isApplyBtnDisabled c) (__wiredResult c).

Definition set_isUIConnectorFieldVisible (v : bool) : M unit :=
  modify (with_isUIConnectorFieldVisible v).

Definition with_isUIConnectorWSFieldVisible (v : bool) (c : Component) : Component :=
  mkComponent (isLoading c) (uiConnector c)
    (uiConnectorWss c) (inactiveTrustedUrlNames c) (csps c)
    (checkboxGroupValue c)
    (isUIConnectorFieldVisible c) v
    (isTwilioFlexFieldVisible c) (isDataTableVisible c)
    (isApplyBtnDisabled c) (__wiredResult c).

Definition set_isUIConnectorWSFieldVisible (v : bool) : M unit :=
  modify (with_isUIConnectorWSFieldVisible v).

Definition with_isTwilioFlexFieldVisible (v : bool) (c : Component) : Component :=
  mkComponent (isLoading c) (uiConnector c)
    (uiConnectorWss c) (inactiveTrustedUrlNames c) (csps c)
    (checkboxGroupValue c)
    (isUIConnectorFieldVisible c) (isUIConnectorWSFieldVisible c)
    v (isDataTableVisible c)
    (isApplyBtnDisabled c) (__wiredResult c).

Definition set_isTwilioFlexFieldVisible (v : bool) : M unit :=
  modify (with_isTwilioFlexFieldVisible v).

Definition with_isDataTableVisible (v : bool) (c : Component) : Component :=
  mkComponent (isLoading c) (uiConnector c)
    (uiConnectorWss c) (inactiveTrustedUrlNames c) (csps c)
    (checkboxGroupValue c)
    (isUIConnectorFieldVisible c) (isUIConnectorWSFieldVisible c)
    (isTwilioFlexFieldVisible c) v
    (isApplyBtnDisabled c) (__wiredResult c).

Definition set_isDataTableVisible (v : bool) : M unit :=
  modify (with_isDataTableVisible v).

Definition with_isApplyBtnDisabled (v : bool) (c : Component) : Component :=
  mkComponent (isLoading c) (uiConnector c)
    (uiConnectorWss c) (inactiveTrustedUrlNames c) (csps c)
    (checkboxGroupValue c)
    (isUIConnectorFieldVisible c) (isUIConnectorWSFieldVisible c)
    (isTwilioFlexFieldVisible c) (isDataTableVisible c)
    v (__wiredResult c).

Definition set_isApplyBtnDisabled (v : bool) : M unit :=
  modify (with_isApplyBtnDisabled v).

Definition with___wiredResult (v : option WireResult) (c : Component) : Component :=
  mkComponent (isLoading c) (uiConnector c)
    (uiConnectorWss c) (inactiveTrustedUrlNames c) (csps c)
    (checkboxGroupValue c)
    (isUIConnectorFieldVisible c) (isUIConnectorWSFieldVisible c)
    (isTwilioFlexFieldVisible c) (isDataTableVisible c)
    (isApplyBtnDisabled c) v.

Definition set___wiredResult (v : option WireResult) : M unit :=
  modify (with___wiredResult v).

(** ** [wiredResources] *)

(** The body of [this.csps.forEach((csp) => ...)]; [initialFields] is the
    local array of the handler. *)
Definition forEach_csp (initialFields : list string) (csp : Csp)
    : M (list string) :=
  when (negb (IsActive csp))
    (push_inactiveTrustedUrlNames (DeveloperName csp)) ;;
  if DeveloperName csp =? UI_CONNECTOR then
    set_isUIConnectorFieldVisible false ;;
    ret (initialFields ++ [UI_CONNECTOR])%list
  else if DeveloperName csp =? UI_CONNECTOR_WSS then
    set_isUIConnectorWSFieldVisible false ;;
    ret (initialFields ++ [UI_CONNECTOR_WSS])%list
  else if DeveloperName csp =? TWILIO_FLEX then
    set_isTwilioFlexFieldVisible false ;;
    ret (initialFields ++ [TWILIO_FLEX])%list
  else ret initialFields.

Definition wiredResources (result : WireResult) : M unit :=
  set___wiredResult (Some result) ;;
  when (match error result with Some _ => true | None => false end)
    (emit (ConsoleError "Error checking if external client app exists:")) ;;
  match data result with
  | None | Some [] => ret tt
  | Some data_ =>
      set_csps data_ ;;
      csps_ <- get csps ;;
      initialFields <- forEach csps_ forEach_csp [] ;;
      set_isDataTableVisible
        (Js.some [UI_CONNECTOR_WSS; UI_CONNECTOR; TWILIO_FLEX]
           (fun field => Js.includes initialFields field)) ;;
      set_isApplyBtnDisabled
        (Js.every [UI_CONNECTOR_WSS; UI_CONNECTOR; TWILIO_FLEX]
           (fun field => Js.includes initialFields field))
  end.

(** ** Getters *)

(** One option of the checkbox group: [{ value, label }]. *)
Record CheckboxOption : Type := mkOption {
  value : string;
  label : string
}.

Definition options : list CheckboxOption :=
  [ mkOption TWILIO_FLEX "Add Twilio Flex to Trusted URLs" ].

(** One row of the data table. *)
Record Row : Type := mkRow {
  developerName : string;
  endpoint : string;
  isActive : bool;
  settingsUrl : string
}.

Definition dataTableData (c : Component) : list Row :=
  map (fun csp =>
         mkRow (DeveloperName csp) (EndpointUrl csp) (IsActive csp)
           ("/lightning/setup/SecurityCspTrustedSite/page?address=%2F"
              ++ Js.slice (Id csp) 0 (-3)))
      (csps c).

Definition numberOfInactiveUrls (c : Component) : nat :=
  length (inactiveTrustedUrlNames c).

Definition inactiveUrlNames (c : Component) : string :=
  Js.join (map Some (inactiveTrustedUrlNames c)) ", ".

(** ** Event handlers *)

Definition connectedCallback : M unit :=
  emit VerifySalesforceDomainCSP.

(** [event.target.name] and [event.target.value] of a change event. *)
Definition handleUrlChange (name value_ : string) : M unit :=
  if name =? UI_CONNECTOR then set_uiConnector value_
  else if name =? UI_CONNECTOR_WSS then set_uiConnectorWss value_
  else ret tt.

(** [event.detail.value] of the checkbox group. *)
Definition handleCheckbox (detail_value : list string) : M unit :=
  set_checkboxGroupValue detail_value.

Definition showToast (title message : string) (variant : option string)
    : M unit :=
  emit (ShowToastEvent title message variant).

(** ** The Apex methods, as the component sees them *)

Inductive Promise : Type :=
| Resolved
| Rejected (e : JsError).

(** What a forced re-fetch of the wire does: it provisions a fresh result
    to the wire handler ([None] when the adapter emits nothing new), or the
    promise of [refreshApex] rejects. *)
Inductive Refetch : Type :=
| Refetched (fresh : option WireResult)
| RefetchRejected (e : JsError).

(** A promise in flight: how it settles, and when.  Only the order of
    the [settles_at] of the promises of one batch matters; two promises
    with the same [settles_at] settle in the order of their calls. *)
Record Pending : Type := mkPending {
  outcome : Promise;
  settles_at : nat
}.

(** A promise that settles before any later one. *)
Definition immediately (p : Promise) : Pending := mkPending p 0.
Coercion immediately : Promise >-> Pending.

(** The platform's answers.  [apex_createTrustedSite siteUrl siteName] is
    how, and when, the promise of that call settles. *)
Record Env : Type := mkEnv {
  apex_createTrustedSite : string -> string -> Pending;
  apex_refresh : option WireResult -> Refetch
}.

(** The promises of an array in the order in which they settle. *)
Fixpoint settles_before (p : Pending) (settled : list Pending)
    : list Pending :=
  match settled with
  | [] => [p]
  | q :: rest =>
      if (settles_at p <=? settles_at q)%nat
      then p :: settled
      else q :: settles_before p rest
  end.

Fixpoint in_settlement_order (creators : list Pending) : list Pending :=
  match creators with
  | [] => []
  | p :: rest => settles_before p (in_settlement_order rest)
  end.

(** [Promise.all], on the outcomes of the promises listed in the order in
    which they settle: resolved when every promise is, rejected with the
    first rejection to settle otherwise. *)
Fixpoint Promise_all (creators : list Promise) : Promise :=
  match creators with
  | [] => Resolved
  | Resolved :: rest => Promise_all rest
  | Rejected e :: _ => Rejected e
  end.

Definition await (p : Promise) : M unit :=
  match p with
  | Resolved => ret tt
  | Rejected e => throw e
  end.

Definition createTrustedSite (env : Env) (siteUrl siteName : string)
    : M Pending :=
  emit (CreateTrustedSite siteUrl siteName) ;;
  ret (apex_createTrustedSite env siteUrl siteName).

Definition refreshApex (env : Env) (handle : option WireResult)
    : M Promise :=
  emit (RefreshApex handle) ;;
  match apex_refresh env handle with
  | Refetched (Some fresh) => wiredResources fresh ;; ret Resolved
  | Refetched None => ret Resolved
  | RefetchRejected e => ret (Rejected e)
  end.

(** ** [onCreateTrustedUrls] and [handleSubmit] *)

Definition onCreateTrustedUrls (env : Env) : M Promise :=
  let creators : list Pending := [] in
  uiConnector_ <- get uiConnector ;;
  creators <-
    (if Js.truthy uiConnector_ then
       p <- createTrustedSite env uiConnector_ UI_CONNECTOR ;;
       ret (creators ++ [p])%list
     else ret creators) ;;
  uiConnectorWss_ <- get uiConnectorWss ;;
  creators <-
    (if Js.truthy uiConnectorWss_ then
       p <- createTrustedSite env uiConnectorWss_ UI_CONNECTOR_WSS ;;
       ret (creators ++ [p])%list
     else ret creators) ;;
  checkboxGroupValue_ <- get checkboxGroupValue ;;
  creators <-
    (if Js.includes checkboxGroupValue_ TWILIO_FLEX then
       p <- createTrustedSite env "https://flex.twilio.com" TWILIO_FLEX ;;
       ret (creators ++ [p])%list
     else ret creators) ;;
  ret (Promise_all (map outcome (in_settlement_order creators))).

(** The submit event: whether [event.target instanceof HTMLFormElement],
    and what [event.target.checkValidity()] answers.
    [event.preventDefault()] acts on the event alone and leaves no trace
    on the instance. *)
Record SubmitEvent : Type := mkSubmitEvent {
  target_is_form : bool;
  checkValidity : bool
}.

(** [error.body.message]: reading a property of an undefined body raises a
    [TypeError]; the result is [Some s] when the property is a string. *)
Definition body_message (b : ErrorBody) : M (option string) :=
  match b with
  | BodyUndefined => throw TypeError
  | BodyArray _ => ret None
  | BodyObject m => ret m
  end.

(** The [catch (error)] block of [handleSubmit]. *)
Definition handleSubmit_catch (error_ : JsError) : M unit :=
  let message := "Unknown error" in
  message <-
    match body error_ with
    | BodyArray elems => ret (Js.join (map elem_message elems) ", ")
    | b =>
        m <- body_message b ;;
        match m with
        | Some s => ret s
        | None => ret message
        end
    end ;;
  showToast "Error" ("Error creating site: " ++ message) (Some "error") ;;
  emit (ConsoleError "Error creating site:") ;;
  set_isApplyBtnDisabled false.

Definition handleSubmit (env : Env) (event : SubmitEvent) : M unit :=
  if negb (target_is_form event) then
    emit (ConsoleError "Event target must be instanceof HTMLFormElement.")
  else if negb (checkValidity event) then
    showToast "Error"
      "Form cannot be submitted due to errors. Please check your Trusted URL fields and try again."
      None
  else
    set_isLoading true ;;
    set_isApplyBtnDisabled true ;;
    try_catch_finally
      (created <- onCreateTrustedUrls env ;;
       await created ;;
       showToast "Success" "Trusted Site created successfully"
         (Some "success") ;;
       handle <- get __wiredResult ;;
       refreshed <- refreshApex env handle ;;
       await refreshed ;;
       set_uiConnectorWss "" ;;
       set_uiConnector "" ;;
       set_checkboxGroupValue [])
      handleSubmit_catch
      (set_isLoading false).

(** ** [handleSubmit], suspended

    [handleSubmit] is an async method.  While it is suspended at one of
    its two [await]s the component stays live: the change handlers run as
    the user edits the form, and the wire handler runs when the adapter
    provisions a result.  None of them looks at [isLoading]. *)
Inductive Handler : Type :=
| UrlChange (name value_ : string)
| CheckboxChange (detail_value : list string)
| Provision (result : WireResult).

Definition handler (h : Handler) : M unit :=
  match h with
  | UrlChange name value_ => handleUrlChange name value_
  | CheckboxChange detail_value => handleCheckbox detail_value
  | Provision result => wiredResources result
  end.

Fixpoint handlers (hs : list Handler) : M unit :=
  match hs with
  | [] => ret tt
  | h :: rest => handler h ;; handlers rest
  end.

(** The handlers that run while the creation calls are in flight, and
    those that run while the re-fetch is. *)
Record Suspension : Type := mkSuspension {
  while_creating : list Handler;
  while_refetching : list Handler
}.

Definition undisturbed : Suspension := mkSuspension [] [].

(** [await p], with the handlers that run before [p] settles. *)
Definition await_during (hs : list Handler) (p : Promise) : M unit :=
  handlers hs ;;
  await p.

(** [handleSubmit], with what happens at its [await]s.  The method above
    is the run in which nothing happens there. *)
Definition handleSubmit_during (during : Suspension) (env : Env)
    (event : SubmitEvent) : M unit :=
  if negb (target_is_form event) then
    emit (ConsoleError "Event target must be instanceof HTMLFormElement.")
  else if negb (checkValidity event) then
    showToast "Error"
      "Form cannot be submitted due to errors. Please check your Trusted URL fields and try again."
      None
  else
    set_isLoading true ;;
    set_isApplyBtnDisabled true ;;
    try_catch_finally
      (created <- onCreateTrustedUrls env ;;
       await_during (while_creating during) created ;;
       showToast "Success" "Trusted Site created successfully"
         (Some "success") ;;
       handle <- get __wiredResult ;;
       refreshed <- refreshApex env handle ;;
       await_during (while_refetching during) refreshed ;;
       set_uiConnectorWss "" ;;
       set_uiConnector "" ;;
       set_checkboxGroupValue [])
      handleSubmit_catch
      (set_isLoading false).

(** ** [ExternalClientAppForm] *)

Module ExternalClientAppForm.

Record Component : Type := mkComponent {
  contactEmail : string;
  ecaId : string;
  doesExternalAppExist : bool;
  isLoading : bool
}.

Inductive Effect : Type :=
| WindowOpen (url target : string).

Definition handleNavigateToEcaSettings (this : Component) : list Effect :=
  [ WindowOpen
      ("/lightning/setup/ManageExternalClientApplication/"
         ++ Js.slice (ecaId this) 0 (-3) ++ "/detail/")
      "_blank" ].

End ExternalClientAppForm.

(** ** Reading a record of effects *)

(** The creation requests that were dispatched, as [(siteUrl, siteName)]. *)
Fixpoint requests (evs : list Effect) : list (string * string) :=
  match evs with
  | [] => []
  | CreateTrustedSite u n :: rest => (u, n) :: requests rest
  | _ :: rest => requests rest
  end.

(** The toasts that were shown, as [(title, message, variant)]. *)
Fixpoint toasts (evs : list Effect) : list (string * string * option string) :=
  match evs with
  | [] => []
  | ShowToastEvent t m v :: rest => (t, m, v) :: toasts rest
  | _ :: rest => toasts rest
  end.

(** How many times the wire was forced to re-fetch. *)
Fixpoint refreshes (evs : list Effect) : nat :=
  match evs with
  | [] => 0
  | RefreshApex _ :: rest => S (refreshes rest)
  | _ :: rest => refreshes rest
  end.

(** ** Notions used to state the properties *)

(** The three sites the form can create. *)
Definition catalog : list string :=
  [UI_CONNECTOR; UI_CONNECTOR_WSS; TWILIO_FLEX].

(** The snapshot a wire result carries: its [data] when that is an array,
    no record otherwise. *)
Definition snapshot_of (result : WireResult) : list Csp :=
  match data result with
  | Some l => l
  | None => []
  end.

(** A site is present in a snapshot when some record bears its name. *)
Definition present (id : string) (snapshot : list Csp) : bool :=
  existsb (fun csp => DeveloperName csp =? id) snapshot.

(** The records of a snapshot that are not active. *)
Definition inactive_records (snapshot : list Csp) : list Csp :=
  filter (fun csp => negb (IsActive csp)) snapshot.

(** The form input, as the template binds it: the two free-text values and
    whether the Twilio Flex box is ticked. *)
Record FormInputState : Type := mkFormInputState {
  input_uiConnector : string;
  input_uiConnectorWss : string;
  input_twilioFlex : bool
}.

Definition form_input (c : Component) : FormInputState :=
  mkFormInputState (uiConnector c) (uiConnectorWss c)
    (Js.includes (checkboxGroupValue c) TWILIO_FLEX).

Definition empty_input : FormInputState := mkFormInputState "" "" false.

(** The names pushed on [initialFields] by the loop of [wiredResources]. *)
Definition initialFields_of (snapshot : list Csp) : list string :=
  filter (Js.includes catalog) (map DeveloperName snapshot).

(** The instance once the loop of [wiredResources] has gone through a
    snapshot. *)
Definition after_forEach (snapshot : list Csp) (c : Component) : Component :=
  mkComponent (isLoading c) (uiConnector c) (uiConnectorWss c)
    (inactiveTrustedUrlNames c
       ++ map DeveloperName (inactive_records snapshot))%list
    (csps c) (checkboxGroupValue c)
    (isUIConnectorFieldVisible c && negb (present UI_CONNECTOR snapshot))
    (isUIConnectorWSFieldVisible c
       && negb (present UI_CONNECTOR_WSS snapshot))
    (isTwilioFlexFieldVisible c && negb (present TWILIO_FLEX snapshot))
    (isDataTableVisible c) (isApplyBtnDisabled c) (__wiredResult c).

(** The flags the template reads: the three field flags, the data table
    flag and the flag that disables the Apply button. *)
Definition view (c : Component) : bool * bool * bool * bool * bool :=
  (isUIConnectorFieldVisible c, isUIConnectorWSFieldVisible c,
   isTwilioFlexFieldVisible c, isDataTableVisible c, isApplyBtnDisabled c).

(** The flags agree with a snapshot: a field shows exactly when its site
    is absent, the table shows when some site is present, and Apply is
    disabled when all three are. *)
Definition view_matches (snapshot : list Csp) (c : Component) : Prop :=
  view c
  = (negb (present UI_CONNECTOR snapshot),
     negb (present UI_CONNECTOR_WSS snapshot),
     negb (present TWILIO_FLEX snapshot),
     existsb (fun id => present id snapshot) catalog,
     forallb (fun id => present id snapshot) catalog).

(** The wire handler run on one result after the other. *)
Definition process (history : list WireResult) (c : Component) : Component :=
  fold_left (fun c0 result => this_after (wiredResources result) c0)
    history c.

(** The site names of the creation requests [onCreateTrustedUrls]
    dispatches on an instance. *)
Definition requested (env : Env) (c : Component) : list string :=
  map snd (requests (events_of (onCreateTrustedUrls env) c)).

(** The instance once [wiredResources] has returned.  An empty snapshot
    has no present site and no inactive record, so only the last three
    fields need a case distinction. *)
Definition after_wiredResources (result : WireResult) (c : Component)
    : Component :=
  let snapshot := snapshot_of result in
  mkComponent (isLoading c) (uiConnector c) (uiConnectorWss c)
    (inactiveTrustedUrlNames c
       ++ map DeveloperName (inactive_records snapshot))%list
    (match snapshot with [] => csps c | _ => snapshot end)
    (checkboxGroupValue c)
    (isUIConnectorFieldVisible c && negb (present UI_CONNECTOR snapshot))
    (isUIConnectorWSFieldVisible c
       && negb (present UI_CONNECTOR_WSS snapshot))
    (isTwilioFlexFieldVisible c && negb (present TWILIO_FLEX snapshot))
    (match snapshot with
     | [] => isDataTableVisible c
     | _ => present UI_CONNECTOR_WSS snapshot
            || present UI_CONNECTOR snapshot
            || present TWILIO_FLEX snapshot
     end)
    (match snapshot with
     | [] => isApplyBtnDisabled c
     | _ => present UI_CONNECTOR_WSS snapshot
            && present UI_CONNECTOR snapshot
            && present TWILIO_FLEX snapshot
     end)
    (Some result).

Definition wiredResources_log (result : WireResult) : list Effect :=
  match error result with
  | Some _ => [ConsoleError "Error checking if external client app exists:"]
  | None => []
  end.

(** The creation requests [onCreateTrustedUrls] builds from the form
    input, as [(siteUrl, siteName)], in the order of the calls. *)
Definition creation_requests (c : Component) : list (string * string) :=
  ((if Js.truthy (uiConnector c)
    then [(uiConnector c, UI_CONNECTOR)] else [])
   ++ (if Js.truthy (uiConnectorWss c)
       then [(uiConnectorWss c, UI_CONNECTOR_WSS)] else [])
   ++ (if Js.includes (checkboxGroupValue c) TWILIO_FLEX
       then [("https://flex.twilio.com", TWILIO_FLEX)] else []))%list.

Definition dispatch (r : string * string) : Effect :=
  CreateTrustedSite (fst r) (snd r).

Definition in_flight (env : Env) (r : string * string) : Pending :=
  apex_createTrustedSite env (fst r) (snd r).

Definition settle (env : Env) (r : string * string) : Promise :=
  outcome (in_flight env r).

(** How the batch of creation requests built from the form input
    settles: [Promise.all] over the promises of the calls. *)
Definition batch (env : Env) (c : Component) : Promise :=
  Promise_all
    (map outcome
       (in_settlement_order (map (in_flight env) (creation_requests c)))).

(** The message the [catch] block of [handleSubmit] builds from the body
    of the caught value; [None] when building it raises. *)
Definition catch_message (b : ErrorBody) : option string :=
  match b with
  | BodyUndefined => None
  | BodyArray elems => Some (Js.join (map elem_message elems) ", ")
  | BodyObject (Some s) => Some s
  | BodyObject None => Some "Unknown error"
  end.

(** The instance when [handleSubmit] enters its [try] block. *)
Definition submitting (c : Component) : Component :=
  with_isApplyBtnDisabled true (with_isLoading true c).

(** The instance a forced re-fetch leaves behind. *)
Definition refetched (fresh : option WireResult) (c : Component)
    : Component :=
  match fresh with
  | Some result => after_wiredResources result c
  | None => c
  end.

Definition refetched_log (fresh : option WireResult) : list Effect :=
  match fresh with
  | Some result => wiredResources_log result
  | None => []
  end.

Definition valid (event : SubmitEvent) : Prop :=
  target_is_form event = true /\ checkValidity event = true.

Definition success_toast : Effect :=
  ShowToastEvent "Success" "Trusted Site created successfully"
    (Some "success").

Definition error_toast (message : string) : Effect :=
  ShowToastEvent "Error" ("Error creating site: " ++ message) (Some "error").

(** Where [handleSubmit] ends once its [catch] block has been entered with
    a caught value, on the instance and with the effects of that moment:
    the block either shows its toast and re-enables Apply, or raises while
    it builds the message; the [finally] block runs in both cases. *)
Definition caught (e : JsError) (c : Component) (evs : list Effect)
    : Completion unit * World :=
  match catch_message (body e) with
  | Some m =>
      (Normal tt,
       mkWorld (with_isLoading false (with_isApplyBtnDisabled false c))
         (evs ++ [error_toast m; ConsoleError "Error creating site:"]))
  | None => (Throw TypeError, mkWorld (with_isLoading false c) evs)
  end.

(** Where [handleSubmit] ends on a valid form, by the way the creation
    calls and the re-fetch settle. *)
Definition submitted (env : Env) (c : Component) (evs : list Effect)
    : Completion unit * World :=
  let evs1 := (evs ++ map dispatch (creation_requests c))%list in
  let evs2 := (evs1 ++ [success_toast; RefreshApex (__wiredResult c)])%list in
  match batch env c with
  | Rejected e => caught e (submitting c) evs1
  | Resolved =>
      match apex_refresh env (__wiredResult c) with
      | RefetchRejected e => caught e (submitting c) evs2
      | Refetched fresh =>
          (Normal tt,
           mkWorld
             (with_isLoading false
                (with_checkboxGroupValue []
                   (with_uiConnector ""
                      (with_uiConnectorWss ""
                         (refetched fresh (submitting c))))))
             (evs2 ++ refetched_log fresh))
      end
  end.

(** The instance once a handler has run, and what it logs. *)
Definition after_handler (c : Component) (h : Handler) : Component :=
  match h with
  | UrlChange name value_ =>
      if name =? UI_CONNECTOR then with_uiConnector value_ c
      else if name =? UI_CONNECTOR_WSS then with_uiConnectorWss value_ c
      else c
  | CheckboxChange detail_value => with_checkboxGroupValue detail_value c
  | Provision result => after_wiredResources result c
  end.

Definition handler_log (h : Handler) : list Effect :=
  match h with
  | Provision result => wiredResources_log result
  | _ => []
  end.

Definition after_handlers (hs : list Handler) (c : Component) : Component :=
  fold_left after_handler hs c.

Definition handlers_log (hs : list Handler) : list Effect :=
  flat_map handler_log hs.

(** Where [handleSubmit] ends on a valid form when handlers run at its
    [await]s. *)
Definition submitted_during (during : Suspension) (env : Env)
    (c : Component) (evs : list Effect) : Completion unit * World :=
  let c1 := after_handlers (while_creating during) (submitting c) in
  let evs1 :=
    (evs ++ map dispatch (creation_requests c)
       ++ handlers_log (while_creating during))%list in
  let evs2 :=
    (evs1 ++ [success_toast; RefreshApex (__wiredResult c1)])%list in
  match batch env c with
  | Rejected e => caught e c1 evs1
  | Resolved =>
      match apex_refresh env (__wiredResult c1) with
      | RefetchRejected e =>
          caught e
            (after_handlers (while_refetching during) c1)
            (evs2 ++ handlers_log (while_refetching during))
      | Refetched fresh =>
          (Normal tt,
           mkWorld
             (with_isLoading false
                (with_checkboxGroupValue []
                   (with_uiConnector ""
                      (with_uiConnectorWss ""
                         (after_handlers (while_refetching during)
                            (refetched fresh c1))))))
             (evs2 ++ refetched_log fresh
                ++ handlers_log (while_refetching during)))
      end
  end.

(** The records the data table shows once a history of wire results has
    been processed: those of the last result that carried any. *)
Definition last_snapshot (history : list WireResult) (before : list Csp)
    : list Csp :=
  fold_left
    (fun shown result =>
       match snapshot_of result with
       | [] => shown
       | snapshot => snapshot
       end)
    history before.

(** Whether a site was present in some result of a history. *)
Definition ever_present (id : string) (history : list WireResult) : bool :=
  existsb (fun result => present id (snapshot_of result)) history.

(** ** The other controllers

    Their methods run in a monad of the same kind, over the instance [S],
    the effects [E] and the thrown values [X] of each controller. *)

Inductive Outcome (X A : Type) : Type :=
| Done (a : A)
| Raised (x : X).
Arguments Done {X A} a.
Arguments Raised {X A} x.

Definition Exec (S E X A : Type) : Type :=
  S * list E -> Outcome X A * (S * list E).

Definition pure {S E X A} (a : A) : Exec S E X A := fun w => (Done a, w).

Definition andThen {S E X A B} (m : Exec S E X A) (k : A -> Exec S E X B)
    : Exec S E X B :=
  fun w =>
    match m w with
    | (Done a, w') => k a w'
    | (Raised x, w') => (Raised x, w')
    end.

Definition raise {S E X A} (x : X) : Exec S E X A := fun w => (Raised x, w).

(** [try { attempt } catch (error) { handler } finally { cleanup }].
    What the body throws is caught; what leaves the statement is what the
    handler or the cleanup throws, once the cleanup has run. *)
Definition attempt {S E X Y A} (body_ : Exec S E X A)
    (handler : X -> Exec S E Y A) (cleanup : Exec S E Y unit)
    : Exec S E Y A :=
  fun w =>
    let '(r, w1) :=
      match body_ w with
      | (Done a, w') => (Done a, w')
      | (Raised x, w') => handler x w'
      end in
    match cleanup w1 with
    | (Done _, w2) => (r, w2)
    | (Raised x, w2) => (Raised x, w2)
    end.

Definition read {S E X A} (field : S -> A) : Exec S E X A :=
  fun w => (Done (field (fst w)), w).

Definition update {S E X} (f : S -> S) : Exec S E X unit :=
  fun w => (Done tt, (f (fst w), snd w)).

Definition perform {S E X} (e : E) : Exec S E X unit :=
  fun w => (Done tt, (fst w, (snd w ++ [e])%list)).

Definition whenever {S E X} (b : bool) (m : Exec S E X unit)
    : Exec S E X unit :=
  if b then m else pure tt.

Fixpoint each {S E X A} (l : list A) (f : A -> Exec S E X unit)
    : Exec S E X unit :=
  match l with
  | [] => pure tt
  | x :: l' => andThen (f x) (fun _ => each l' f)
  end.

Definition wait {S E} (p : Promise) : Exec S E JsError unit :=
  match p with
  | Resolved => pure tt
  | Rejected e => raise e
  end.

(** Running a method on an instance, from an empty record of effects. *)
Definition exec {S E X A} (m : Exec S E X A) (s : S)
    : Outcome X A * (S * list E) :=
  m (s, []).

Definition state_after {S E X A} (m : Exec S E X A) (s : S) : S :=
  fst (snd (exec m s)).

Definition effects_of {S E X A} (m : Exec S E X A) (s : S) : list E :=
  snd (snd (exec m s)).

Definition outcome_of {S E X A} (m : Exec S E X A) (s : S) : Outcome X A :=
  fst (exec m s).

Declare Scope exec_scope.
Delimit Scope exec_scope with exec.
Notation "x <- m ;; k" := (andThen m (fun x => k))
  (at level 61, m at next level, right associativity) : exec_scope.
Notation "m ;; k" := (andThen m (fun _ => k))
  (at level 61, right associativity) : exec_scope.

(** ** The methods of [ExternalClientAppForm] *)

Module EcaMethods.

Local Open Scope exec_scope.

(** A record of [getExistingECA]. *)
Record Eca : Type := mkEca {
  Id : string;
  ContactEmail : string
}.

Record WireResult : Type := mkWireResult {
  data : option (list Eca);
  error : option JsError
}.

(** The instance: the fields the template reads, and [__wiredResult]
    ([None] is the [null] of the initialiser). *)
Record Instance : Type := mkInstance {
  fields : ExternalClientAppForm.Component;
  __wiredResult : option WireResult
}.

Definition initial : Instance :=
  mkInstance (ExternalClientAppForm.mkComponent "" "" false false) None.

Definition contactEmail (i : Instance) : string :=
  ExternalClientAppForm.contactEmail (fields i).
Definition ecaId (i : Instance) : string :=
  ExternalClientAppForm.ecaId (fields i).
Definition doesExternalAppExist (i : Instance) : bool :=
  ExternalClientAppForm.doesExternalAppExist (fields i).
Definition isLoading (i : Instance) : bool :=
  ExternalClientAppForm.isLoading (fields i).

Definition with_contactEmail (v : string) (i : Instance) : Instance :=
  mkInstance
    (ExternalClientAppForm.mkComponent v (ecaId i) (doesExternalAppExist i)
       (isLoading i))
    (__wiredResult i).

Definition with_ecaId (v : string) (i : Instance) : Instance :=
  mkInstance
    (ExternalClientAppForm.mkComponent (contactEmail i) v
       (doesExternalAppExist i) (isLoading i))
    (__wiredResult i).

Definition with_doesExternalAppExist (v : bool) (i : Instance) : Instance :=
  mkInstance
    (ExternalClientAppForm.mkComponent (contactEmail i) (ecaId i) v
       (isLoading i))
    (__wiredResult i).

Definition with_isLoading (v : bool) (i : Instance) : Instance :=
  mkInstance
    (ExternalClientAppForm.mkComponent (contactEmail i) (ecaId i)
       (doesExternalAppExist i) v)
    (__wiredResult i).

Definition with___wiredResult (v : option WireResult) (i : Instance)
    : Instance :=
  mkInstance (fields i) v.

Inductive Effect : Type :=
| ShowToastEvent (title message : string) (variant : option string)
| ConsoleError (text : string)
| CreateExternalClientApp (contactEmail : string)
| RefreshApex (handle : option WireResult).

Definition Method (A : Type) : Type := Exec Instance Effect JsError A.

Definition wiredResources (params : WireResult) : Method unit :=
  update (with___wiredResult (Some params)) ;;
  whenever (match error params with Some _ => true | None => false end)
    (perform (ConsoleError "Error checking if external client app exists:")) ;;
  match data params with
  | Some (eca :: _) =>
      update (with_doesExternalAppExist true) ;;
      update (with_contactEmail (ContactEmail eca)) ;;
      update (with_ecaId (Id eca))
  | _ => pure tt
  end.

(** [event.target.value], when the target has one and it is a string. *)
Definition handleEmailChange (target_value : option string) : Method unit :=
  match target_value with
  | Some v => update (with_contactEmail v)
  | None => pure tt
  end.

Definition showToast (title message : string) (variant : option string)
    : Method unit :=
  perform (ShowToastEvent title message variant).

(** A forced re-fetch provisions a fresh result to the wire handler
    before its promise resolves ([None] when the adapter emits nothing
    new), or its promise rejects. *)
Inductive Refetch : Type :=
| Refetched (fresh : option WireResult)
| RefetchRejected (e : JsError).

Record Env : Type := mkEnv {
  apex_create : string -> Promise;
  apex_refresh : option WireResult -> Refetch
}.

Definition createExternalClientApp (env : Env) (email : string)
    : Method Promise :=
  perform (CreateExternalClientApp email) ;;
  pure (apex_create env email).

Definition refreshApex (env : Env) (handle : option WireResult)
    : Method Promise :=
  perform (RefreshApex handle) ;;
  match apex_refresh env handle with
  | Refetched (Some fresh) => wiredResources fresh ;; pure Resolved
  | Refetched None => pure Resolved
  | RefetchRejected e => pure (Rejected e)
  end.

Definition body_message (b : ErrorBody) : Method (option string) :=
  match b with
  | BodyUndefined => raise TypeError
  | BodyArray _ => pure None
  | BodyObject m => pure m
  end.

Definition handleCreate_catch (error_ : JsError) : Method unit :=
  let message := "Unknown error" in
  message <-
    match body error_ with
    | BodyArray elems => pure (Js.join (map elem_message elems) ", ")
    | b =>
        m <- body_message b ;;
        match m with
        | Some s => pure s
        | None => pure message
        end
    end ;;
  showToast "Error" ("Error creating external client app: " ++ message)
    (Some "error") ;;
  perform (ConsoleError "Error creating external client app:").

Definition handleCreate (env : Env) : Method unit :=
  email <- read contactEmail ;;
  if negb (Js.truthy email) then
    showToast "Error" "Please fill in all fields" (Some "error")
  else
    attempt
      (update (with_isLoading true) ;;
       email <- read contactEmail ;;
       created <- createExternalClientApp env email ;;
       wait created ;;
       showToast "Success" "External Client App created successfully"
         (Some "success") ;;
       handle <- read __wiredResult ;;
       refreshed <- refreshApex env handle ;;
       wait refreshed ;;
       update (with_contactEmail ""))
      handleCreate_catch
      (update (with_isLoading false)).

(** [handleNavigateToEcaSettings], on the instance. *)
Definition handleNavigateToEcaSettings (i : Instance)
    : list ExternalClientAppForm.Effect :=
  ExternalClientAppForm.handleNavigateToEcaSettings (fields i).

(** The wire handler run on one result after the other. *)
Definition process (history : list WireResult) (i : Instance) : Instance :=
  fold_left (fun i0 params => state_after (wiredResources params) i0)
    history i.

(** The first record of the last result of a history that carried one. *)
Definition last_record (history : list WireResult) : option Eca :=
  fold_left
    (fun found params =>
       match data params with
       | Some (eca :: _) => Some eca
       | _ => found
       end)
    history None.

Fixpoint toasts (evs : list Effect) : list (string * string * option string) :=
  match evs with
  | [] => []
  | ShowToastEvent t m v :: rest => (t, m, v) :: toasts rest
  | _ :: rest => toasts rest
  end.

Fixpoint creations (evs : list Effect) : list string :=
  match evs with
  | [] => []
  | CreateExternalClientApp email :: rest => email :: creations rest
  | _ :: rest => creations rest
  end.

Fixpoint refreshes (evs : list Effect) : nat :=
  match evs with
  | [] => 0
  | RefreshApex _ :: rest => S (refreshes rest)
  | _ :: rest => refreshes rest
  end.

(** The instance once [wiredResources] has returned. *)
Definition after_wiredResources (params : WireResult) (i : Instance)
    : Instance :=
  match data params with
  | Some (eca :: _) =>
      mkInstance
        (ExternalClientAppForm.mkComponent (ContactEmail eca) (Id eca) true
           (isLoading i))
        (Some params)
  | _ => mkInstance (fields i) (Some params)
  end.

Definition wiredResources_log (params : WireResult) : list Effect :=
  match error params with
  | Some _ => [ConsoleError "Error checking if external client app exists:"]
  | None => []
  end.

(** The instance a forced re-fetch leaves behind. *)
Definition refetched (fresh : option WireResult) (i : Instance) : Instance :=
  match fresh with
  | Some params => after_wiredResources params i
  | None => i
  end.

Definition has_record (params : WireResult) : bool :=
  match data params with
  | Some (_ :: _) => true
  | _ => false
  end.

End EcaMethods.

(** ** [SetupAssistant], the message channel controller *)

Module SetupAssistant.

Local Open Scope exec_scope.

(** [MessagingChannelWithUrl], when it is not [null]. *)
Record Item : Type := mkItem {
  name : string;
  id : string;
  routingType : string;
  targetQueueId : string;
  url : string
}.

(** One row of the table: [{ ...item, status }]. *)
Record TableRow : Type := mkTableRow {
  item : Item;
  status : string
}.

(** The [error] of a wire result, with the text [String(error)] gives. *)
Record WireError : Type := mkWireError {
  rendered : string
}.

Record Params : Type := mkParams {
  error : option WireError;
  data : option Item
}.

(** What the field [this.error] holds. *)
Inductive ErrorField : Type :=
| Undefined
| Null
| Text (s : string).

Record Instance : Type := mkInstance {
  isLoading : bool;
  isSuccess : bool;
  error_ : ErrorField;
  __wiredResult : option Params;
  tableData : option (list TableRow);
  shouldDisplayInstallBtn : bool;
  channelUrl : string
}.

Definition initial : Instance :=
  mkInstance false false Undefined None None true "".

Definition with_isLoading (v : bool) (i : Instance) : Instance :=
  mkInstance v (isSuccess i) (error_ i) (__wiredResult i) (tableData i)
    (shouldDisplayInstallBtn i) (channelUrl i).

Definition with_isSuccess (v : bool) (i : Instance) : Instance :=
  mkInstance (isLoading i) v (error_ i) (__wiredResult i) (tableData i)
    (shouldDisplayInstallBtn i) (channelUrl i).

Definition with_error (v : ErrorField) (i : Instance) : Instance :=
  mkInstance (isLoading i) (isSuccess i) v (__wiredResult i) (tableData i)
    (shouldDisplayInstallBtn i) (channelUrl i).

Definition with___wiredResult (v : option Params) (i : Instance) : Instance :=
  mkInstance (isLoading i) (isSuccess i) (error_ i) v (tableData i)
    (shouldDisplayInstallBtn i) (channelUrl i).

Definition with_tableData (v : option (list TableRow)) (i : Instance)
    : Instance :=
  mkInstance (isLoading i) (isSuccess i) (error_ i) (__wiredResult i) v
    (shouldDisplayInstallBtn i) (channelUrl i).

Definition with_shouldDisplayInstallBtn (v : bool) (i : Instance)
    : Instance :=
  mkInstance (isLoading i) (isSuccess i) (error_ i) (__wiredResult i)
    (tableData i) v (channelUrl i).

Definition with_channelUrl (v : string) (i : Instance) : Instance :=
  mkInstance (isLoading i) (isSuccess i) (error_ i) (__wiredResult i)
    (tableData i) (shouldDisplayInstallBtn i) v.

(** The [body] of a caught value: a falsy one ([undefined], [null]), or
    an object (an array included) with what its [message] holds. *)
Inductive RejectionBody : Type :=
| NoBody
| SomeBody (message : ErrorField).

(** A caught value: [undefined] or [null], of which no property can be
    read, or a value with its [body] and what its own [message] holds. *)
Inductive Rejection : Type :=
| Nullish
| Thrown (body : RejectionBody) (message : ErrorField).

(** The exception the engine raises when a property of [undefined] or
    [null] is read. *)
Inductive EngineError : Type :=
| TypeError.

Inductive Effect : Type :=
| ConsoleError (e : WireError)
| InstallMessageChannel
| RefreshApex (handle : option Params).

Definition Method (A : Type) : Type := Exec Instance Effect Rejection A.

Definition wiredResources (params : Params) : Method unit :=
  update (with___wiredResult (Some params)) ;;
  errors <-
    match error params with
    | Some e =>
        perform (ConsoleError e) ;;
        update (with_tableData None) ;;
        pure [e]
    | None => pure []
    end ;;
  match data params with
  | None => update (with_shouldDisplayInstallBtn true)
  | Some item_ =>
      update (with_channelUrl (url item_)) ;;
      update
        (with_tableData
           (Some [mkTableRow item_
                    (if Js.truthy (url item_)
                     then "Deployed" else "Not Deployed")])) ;;
      match errors with
      | _ :: _ =>
          update
            (with_error
               (Text (String.concat (String (Ascii.ascii_of_nat 10) "")
                        (map rendered errors)))) ;;
          update (with_shouldDisplayInstallBtn false)
      | [] =>
          update (with_error Undefined) ;;
          update (with_isSuccess true) ;;
          update (with_shouldDisplayInstallBtn false)
      end
  end.

Inductive Settled : Type :=
| Fulfilled
| Failed (e : Rejection).

(** A forced re-fetch provisions a fresh result to the wire handler
    before its promise resolves, or its promise rejects. *)
Inductive Refetch : Type :=
| Refetched (fresh : option Params)
| RefetchFailed (e : Rejection).

Record Env : Type := mkEnv {
  apex_install : Settled;
  apex_refresh : option Params -> Refetch
}.

Definition await (p : Settled) : Method unit :=
  match p with
  | Fulfilled => pure tt
  | Failed e => raise e
  end.

Definition installMessageChannel (env : Env) : Method Settled :=
  perform InstallMessageChannel ;;
  pure (apex_install env).

Definition refreshApex (env : Env) (handle : option Params)
    : Method Settled :=
  perform (RefreshApex handle) ;;
  match apex_refresh env handle with
  | Refetched (Some fresh) => wiredResources fresh ;; pure Fulfilled
  | Refetched None => pure Fulfilled
  | RefetchFailed e => pure (Failed e)
  end.

Definition handleDeploy (env : Env)
    : Exec Instance Effect EngineError unit :=
  update (with_isLoading true) ;;
  update (with_error Null) ;;
  update (with_isSuccess false) ;;
  attempt
    (installed <- installMessageChannel env ;;
     await installed ;;
     update (with_isSuccess true) ;;
     handle <- read __wiredResult ;;
     refreshed <- refreshApex env handle ;;
     await refreshed)
    (fun error =>
       match error with
       | Nullish => raise TypeError
       | Thrown (SomeBody body_message) _ => update (with_error body_message)
       | Thrown NoBody error_message => update (with_error error_message)
       end)
    (update (with_isLoading false)).

(** The instance once [wiredResources] has returned. *)
Definition after_wiredResources (params : Params) (i : Instance)
    : Instance :=
  match data params, error params with
  | None, None =>
      mkInstance (isLoading i) (isSuccess i) (error_ i) (Some params)
        (tableData i) true (channelUrl i)
  | None, Some _ =>
      mkInstance (isLoading i) (isSuccess i) (error_ i) (Some params)
        None true (channelUrl i)
  | Some item_, None =>
      mkInstance (isLoading i) true Undefined (Some params)
        (Some [mkTableRow item_
                 (if Js.truthy (url item_)
                  then "Deployed" else "Not Deployed")])
        false (url item_)
  | Some item_, Some e =>
      mkInstance (isLoading i) (isSuccess i) (Text (rendered e)) (Some params)
        (Some [mkTableRow item_
                 (if Js.truthy (url item_)
                  then "Deployed" else "Not Deployed")])
        false (url item_)
  end.

Definition wiredResources_log (params : Params) : list Effect :=
  match error params with
  | Some e => [ConsoleError e]
  | None => []
  end.

Definition refetched (fresh : option Params) (i : Instance) : Instance :=
  match fresh with
  | Some params => after_wiredResources params i
  | None => i
  end.

(** The value [handleDeploy] catches on an instance, if it catches one:
    the rejection of the installation, or else that of the re-fetch. *)
Definition caught (env : Env) (i : Instance) : option Rejection :=
  match apex_install env with
  | Failed e => Some e
  | Fulfilled =>
      match apex_refresh env (__wiredResult i) with
      | RefetchFailed e => Some e
      | Refetched _ => None
      end
  end.

(** What the [catch] block leaves in [this.error], which holds [null]
    when the block is entered. *)
Definition error_after_catch (e : Rejection) : ErrorField :=
  match e with
  | Nullish => Null
  | Thrown (SomeBody body_message) _ => body_message
  | Thrown NoBody error_message => error_message
  end.

(** How the [catch] block completes. *)
Definition completion_of_catch (e : Rejection) : Outcome EngineError unit :=
  match e with
  | Nullish => Raised TypeError
  | Thrown _ _ => Done tt
  end.

Fixpoint installs (evs : list Effect) : nat :=
  match evs with
  | [] => 0
  | InstallMessageChannel :: rest => S (installs rest)
  | _ :: rest => installs rest
  end.

Fixpoint refreshes (evs : list Effect) : nat :=
  match evs with
  | [] => 0
  | RefreshApex _ :: rest => S (refreshes rest)
  | _ :: rest => refreshes rest
  end.

End SetupAssistant.

(** ** The read-only variant of [CspTrustedSiteForm]

    This controller fills the form with the Trusted URLs that exist and
    shows it read-only once ui_connector or ui_connector_wss exists. *)

Module ReadonlyForm.

Local Open Scope exec_scope.

Record Instance : Type := mkInstance {
  isLoading : bool;
  uiConnector : string;
  uiConnectorWss : string;
  provider : list string;
  showReadonlyState : bool;
  inactiveTrustedUrlNames : list string;
  csps : list Csp
}.

Definition initial : Instance := mkInstance false "" "" [] false [] [].

Definition with_isLoading (v : bool) (i : Instance) : Instance :=
  mkInstance v (uiConnector i) (uiConnectorWss i) (provider i)
    (showReadonlyState i) (inactiveTrustedUrlNames i) (csps i).

Definition with_uiConnector (v : string) (i : Instance) : Instance :=
  mkInstance (isLoading i) v (uiConnectorWss i) (provider i)
    (showReadonlyState i) (inactiveTrustedUrlNames i) (csps i).

Definition with_uiConnectorWss (v : string) (i : Instance) : Instance :=
  mkInstance (isLoading i) (uiConnector i) v (provider i)
    (showReadonlyState i) (inactiveTrustedUrlNames i) (csps i).

Definition with_provider (v : list string) (i : Instance) : Instance :=
  mkInstance (isLoading i) (uiConnector i) (uiConnectorWss i) v
    (showReadonlyState i) (inactiveTrustedUrlNames i) (csps i).

Definition with_showReadonlyState (v : bool) (i : Instance) : Instance :=
  mkInstance (isLoading i) (uiConnector i) (uiConnectorWss i) (provider i)
    v (inactiveTrustedUrlNames i) (csps i).

Definition pushed_inactiveTrustedUrlNames (v : string) (i : Instance)
    : Instance :=
  mkInstance (isLoading i) (uiConnector i) (uiConnectorWss i) (provider i)
    (showReadonlyState i) (inactiveTrustedUrlNames i ++ [v])%list (csps i).

Definition with_csps (v : list Csp) (i : Instance) : Instance :=
  mkInstance (isLoading i) (uiConnector i) (uiConnectorWss i) (provider i)
    (showReadonlyState i) (inactiveTrustedUrlNames i) v.

Inductive Effect : Type :=
| ShowToastEvent (title message : string) (variant : option string)
| ConsoleError (text : string)
| ConsoleLog (logged : list Csp)
| CreateTrustedSite (siteUrl siteName : string)
| VerifySalesforceDomainCSP.

Definition Method (A : Type) : Type := Exec Instance Effect JsError A.

(** The body of [this.csps.forEach((csp) => ...)]. *)
Definition forEach_csp (csp : Csp) : Method unit :=
  whenever (negb (IsActive csp))
    (update (pushed_inactiveTrustedUrlNames (DeveloperName csp))) ;;
  (if DeveloperName csp =? UI_CONNECTOR then
     update (with_uiConnector (EndpointUrl csp))
   else if DeveloperName csp =? UI_CONNECTOR_WSS then
     update (with_uiConnectorWss (EndpointUrl csp))
   else if DeveloperName csp =? TWILIO_FLEX then
     update (with_provider [TWILIO_FLEX])
   else pure tt) ;;
  whenever
    (Js.includes [UI_CONNECTOR; UI_CONNECTOR_WSS] (DeveloperName csp))
    (update (with_showReadonlyState true)).

Definition wiredResources (result : WireResult) : Method unit :=
  whenever (match error result with Some _ => true | None => false end)
    (perform (ConsoleError "Error checking if external client app exists:")) ;;
  match data result with
  | None | Some [] => pure tt
  | Some data_ =>
      perform (ConsoleLog data_) ;;
      update (with_csps data_) ;;
      csps_ <- read csps ;;
      each csps_ forEach_csp
  end.

Definition displayCreateBtn (i : Instance) : bool :=
  negb (showReadonlyState i).

Definition numberOfInactiveUrls (i : Instance) : nat :=
  length (inactiveTrustedUrlNames i).

Definition inactiveUrlNames (i : Instance) : string :=
  Js.join (map Some (inactiveTrustedUrlNames i)) ", ".

Definition connectedCallback : Method unit :=
  perform VerifySalesforceDomainCSP.

Definition handleUrlChange (name value_ : string) : Method unit :=
  if name =? UI_CONNECTOR then update (with_uiConnector value_)
  else if name =? UI_CONNECTOR_WSS then update (with_uiConnectorWss value_)
  else pure tt.

Definition handleProviderCheckbox (detail_value : list string)
    : Method unit :=
  update (with_provider detail_value).

Definition showToast (title message : string) (variant : option string)
    : Method unit :=
  perform (ShowToastEvent title message variant).

Definition createTrustedSite (create : string -> string -> Pending)
    (siteUrl siteName : string) : Method Pending :=
  perform (CreateTrustedSite siteUrl siteName) ;;
  pure (create siteUrl siteName).

Definition body_message (b : ErrorBody) : Method (option string) :=
  match b with
  | BodyUndefined => raise TypeError
  | BodyArray _ => pure None
  | BodyObject m => pure m
  end.

Definition handleCreate_catch (error_ : JsError) : Method unit :=
  let message := "Unknown error" in
  message <-
    match body error_ with
    | BodyArray elems => pure (Js.join (map elem_message elems) ", ")
    | b =>
        m <- body_message b ;;
        match m with
        | Some s => pure s
        | None => pure message
        end
    end ;;
  showToast "Error" ("Error creating site: " ++ message) (Some "error") ;;
  perform (ConsoleError "Error creating site:").

(** [create siteUrl siteName] is how, and when, the promise of that Apex
    call settles. *)
Definition handleCreate (create : string -> string -> Pending)
    : Method unit :=
  uiConnector_ <- read uiConnector ;;
  uiConnectorWss_ <- read uiConnectorWss ;;
  if negb (Js.truthy uiConnector_) || negb (Js.truthy uiConnectorWss_) then
    showToast "Error" "Please fill in all fields" (Some "error")
  else
    update (with_isLoading true) ;;
    p1 <- createTrustedSite create uiConnector_ UI_CONNECTOR ;;
    p2 <- createTrustedSite create uiConnectorWss_ UI_CONNECTOR_WSS ;;
    let creators := [p1; p2] in
    provider_ <- read provider ;;
    creators <-
      (if match provider_ with
          | first :: _ => first =? TWILIO_FLEX
          | [] => false
          end
       then
         p3 <- createTrustedSite create "https://flex.twilio.com"
                 TWILIO_FLEX ;;
         pure (creators ++ [p3])%list
       else pure creators) ;;
    attempt
      (wait (Promise_all (map outcome (in_settlement_order creators))) ;;
       showToast "Success" "Trusted Site created successfully"
         (Some "success"))
      handleCreate_catch
      (update (with_isLoading false)).

(** The last record of a snapshot that bears a name. *)
Fixpoint last_named (id : string) (snapshot : list Csp) : option Csp :=
  match snapshot with
  | [] => None
  | csp :: rest =>
      match last_named id rest with
      | Some found => Some found
      | None => if DeveloperName csp =? id then Some csp else None
      end
  end.

(** The instance once the loop of [wiredResources] has gone through a
    snapshot. *)
Definition after_each (snapshot : list Csp) (i : Instance) : Instance :=
  mkInstance (isLoading i)
    (match last_named UI_CONNECTOR snapshot with
     | Some csp => EndpointUrl csp
     | None => uiConnector i
     end)
    (match last_named UI_CONNECTOR_WSS snapshot with
     | Some csp => EndpointUrl csp
     | None => uiConnectorWss i
     end)
    (if present TWILIO_FLEX snapshot then [TWILIO_FLEX] else provider i)
    (showReadonlyState i
     || present UI_CONNECTOR snapshot || present UI_CONNECTOR_WSS snapshot)
    (inactiveTrustedUrlNames i
       ++ map DeveloperName (inactive_records snapshot))%list
    (csps i).

(** The creation requests [handleCreate] dispatches when both fields are
    filled. *)
Definition creation_requests (i : Instance) : list (string * string) :=
  ([(uiConnector i, UI_CONNECTOR); (uiConnectorWss i, UI_CONNECTOR_WSS)]
   ++ match provider i with
      | first :: _ =>
          if first =? TWILIO_FLEX
          then [("https://flex.twilio.com", TWILIO_FLEX)] else []
      | [] => []
      end)%list.

Fixpoint requests (evs : list Effect) : list (string * string) :=
  match evs with
  | [] => []
  | CreateTrustedSite u n :: rest => (u, n) :: requests rest
  | _ :: rest => requests rest
  end.

Fixpoint toasts (evs : list Effect) : list (string * string * option string) :=
  match evs with
  | [] => []
  | ShowToastEvent t m v :: rest => (t, m, v) :: toasts rest
  | _ :: rest => toasts rest
  end.

End ReadonlyForm.

(** ** [Wizard], the tab set of the deployment wizard *)

Module Wizard.

(** A string of the program is a sequence of UTF-16 code units. *)
Definition JsString : Type := list N.

(** The code units of a text written in ASCII. *)
Fixpoint js (s : string) : JsString :=
  match s with
  | String a rest => Ascii.N_of_ascii a :: js rest
  | EmptyString => []
  end.

(** The white space [parseInt] skips, which is the white space and the
    line terminators of the language: tab, line feed, vertical tab, form
    feed, carriage return, space, U+00A0, U+1680, U+2000 to U+200A,
    U+2028, U+2029, U+202F, U+205F, U+3000 and U+FEFF. *)
Definition is_white_space (u : N) : bool :=
  (((9 <=? u) && (u <=? 13)) || (u =? 32) || (u =? 160) || (u =? 5760)
   || ((8192 <=? u) && (u <=? 8202)) || (u =? 8232) || (u =? 8233)
   || (u =? 8239) || (u =? 8287) || (u =? 12288) || (u =? 65279))%N.

(** The decimal digits. *)
Definition is_digit (u : N) : bool :=
  ((48 <=? u) && (u <=? 57))%N.

Fixpoint trim_start (s : JsString) : JsString :=
  match s with
  | u :: rest => if is_white_space u then trim_start rest else s
  | [] => s
  end.

Definition minus_sign : N := 45.
Definition plus_sign : N := 43.

(** The longest prefix of a string that is made of digits. *)
Fixpoint digits_prefix (s : JsString) : JsString :=
  match s with
  | u :: rest => if is_digit u then u :: digits_prefix rest else []
  | [] => []
  end.

(** The text of a sequence of digits. *)
Fixpoint text_of (digits : JsString) : string :=
  match digits with
  | u :: rest => String (Ascii.ascii_of_N u) (text_of rest)
  | [] => EmptyString
  end.

(** [parseInt(s, 10)]: white space is skipped, a sign is read, and the
    digits that follow are read as far as they go; [None] is [NaN], the
    answer when no digit follows. *)
Definition parseInt (s : JsString) : option Z :=
  let s1 := trim_start s in
  let '(sign, s2) :=
    match s1 with
    | u :: rest =>
        if (u =? minus_sign)%N then ((-1)%Z, rest)
        else if (u =? plus_sign)%N then (1%Z, rest)
        else (1%Z, s1)
    | [] => (1%Z, s1)
    end in
  match digits_prefix s2 with
  | [] => None
  | digits =>
      match DecimalString.NilEmpty.uint_of_string (text_of digits) with
      | Some d => Some (sign * Z.of_uint d)%Z
      | None => None
      end
  end.

(** [Number.prototype.toString] on an integer. *)
Definition toString (z : Z) : JsString :=
  js (DecimalString.NilEmpty.string_of_int (Z.to_int z)).

Record Instance : Type := mkInstance {
  selectedTab : JsString
}.

Definition initial : Instance := mkInstance (js "1").

(** [onNext].  The numbers of the program are doubles: the result is
    [None] when the number read is not below 2^53 in absolute value, where
    doubles stop being exact and this model stops following them. *)
Definition onNext (this_ : Instance) : option Instance :=
  match parseInt (selectedTab this_) with
  | None => Some (mkInstance (js "NaN"))
  | Some z =>
      if (Z.abs z <? 2 ^ 53)%Z
      then Some (mkInstance (toString (z + 1)))
      else None
  end.

(** [onNext] called a number of times in a row. *)
Fixpoint onNext_times (n : nat) (this_ : Instance) : option Instance :=
  match n with
  | O => Some this_
  | S n' =>
      match onNext this_ with
      | Some next => onNext_times n' next
      | None => None
      end
  end.

End Wizard.

(** ** Examples *)

Definition csp_ui : Csp :=
  mkCsp "0BsXX0000000001AAA" "ui_connector" "https://ui.example.com" true.
Definition csp_ui_inactive : Csp :=
  mkCsp "0BsXX0000000001AAA" "ui_connector" "https://ui.example.com" false.
Definition csp_wss : Csp :=
  mkCsp "0BsXX0000000002AAA" "ui_connector_wss" "wss://ui.example.com" true.
Definition csp_flex : Csp :=
  mkCsp "0BsXX0000000003AAA" "twilio_flex" "https://flex.twilio.com" true.
Definition csp_other_inactive : Csp :=
  mkCsp "0BsXX0000000004AAA" "salesforce_domain"
    "https://acme.my.salesforce.com" false.

Definition wire (l : list Csp) : WireResult := mkWireResult (Some l) None.

(** A valid submit event, and one whose form does not validate. *)
Definition submit_event : SubmitEvent := mkSubmitEvent true true.
Definition invalid_event : SubmitEvent := mkSubmitEvent true false.

(** The admin has typed a URL for ui_connector; and has filled the two
    fields and ticked the box. *)
Definition typed_ui : Component :=
  this_after (handleUrlChange UI_CONNECTOR "https://ui.example.com") initial.

Definition typed_all : Component :=
  this_after
    (handleUrlChange UI_CONNECTOR "https://ui.example.com" ;;
     handleUrlChange UI_CONNECTOR_WSS "wss://ui.example.com" ;;
     handleCheckbox [TWILIO_FLEX])
    initial.

(** Platforms: every call succeeds; the creation of ui_connector_wss is
    rejected as a duplicate; every creation is rejected with a value that
    has no body; the creations succeed and the re-fetch is rejected, with
    a message or with a value that has no body. *)
Definition env_ok : Env :=
  mkEnv (fun _ _ => Resolved) (fun _ => Refetched None).

Definition env_duplicate : Env :=
  mkEnv (fun _ siteName =>
           if siteName =? UI_CONNECTOR_WSS
           then Rejected
                  (ErrorValue (BodyArray [mkBodyElem (Some "duplicate")]))
           else Resolved)
        (fun _ => Refetched None).

Definition env_no_body : Env :=
  mkEnv (fun _ _ => Rejected (ErrorValue BodyUndefined))
        (fun _ => Refetched None).

Definition env_refetch_message : Env :=
  mkEnv (fun _ _ => Resolved)
        (fun _ => RefetchRejected (ErrorValue (BodyObject (Some "offline")))).

Definition env_refetch_no_body : Env :=
  mkEnv (fun _ _ => Resolved)
        (fun _ => RefetchRejected (ErrorValue BodyUndefined)).

(** Every creation is rejected: that of ui_connector last and with a
    value that has no body, the others before it and as duplicates. *)
Definition env_race : Env :=
  mkEnv (fun _ siteName =>
           if siteName =? UI_CONNECTOR
           then mkPending (Rejected (ErrorValue BodyUndefined)) 2
           else mkPending
                  (Rejected
                     (ErrorValue (BodyArray [mkBodyElem (Some "duplicate")])))
                  1)
        (fun _ => Refetched None).

(** The admin types a URL for ui_connector_wss while the creation calls
    of a submission are in flight. *)
Definition typing_wss : Suspension :=
  mkSuspension [UrlChange UI_CONNECTOR_WSS "wss://ui.example.com"] [].

Example slice_id : Js.slice "0BsXX0000000001AAA" 0 (-3) = "0BsXX0000000001".
Proof. reflexivity. Qed.

Example slice_short : Js.slice "ab" 0 (-3) = "".
Proof. reflexivity. Qed.

Example scenario_A :
  let c := this_after (wiredResources (wire [csp_ui; csp_wss])) initial in
  isTwilioFlexFieldVisible c = true /\ isUIConnectorFieldVisible c = false
  /\ isApplyBtnDisabled c = false /\ isDataTableVisible c = true
  /\ numberOfInactiveUrls c = 0.
Proof. cbv. repeat split. Qed.

Example scenario_E :
  let c := this_after (wiredResources (wire [csp_ui_inactive])) initial in
  inactiveUrlNames c = "ui_connector" /\ numberOfInactiveUrls c = 1.
Proof. cbv. repeat split. Qed.

(** ** Lemmas on the monad and on the loop *)

Lemma includes_app l1 l2 x :
  Js.includes (l1 ++ l2) x = Js.includes l1 x || Js.includes l2 x.
Proof. unfold Js.includes. apply existsb_app. Qed.

Lemma includes_initialFields_of id snapshot :
  Js.includes catalog id = true ->
  Js.includes (initialFields_of snapshot) id = present id snapshot.
Proof.
  intros Hid. unfold initialFields_of, present.
  induction snapshot as [|csp rest IH]; [reflexivity|].
  cbn [map filter existsb].
  destruct (DeveloperName csp =? id) eqn:E.
  - apply String.eqb_eq in E. rewrite E, Hid.
    unfold Js.includes at 1. cbn [existsb]. now rewrite String.eqb_refl.
  - destruct (Js.includes catalog (DeveloperName csp)); [|exact IH].
    unfold Js.includes at 1. cbn [existsb].
    rewrite String.eqb_sym, E. exact IH.
Qed.

Lemma after_forEach_nil c : after_forEach [] c = c.
Proof.
  destruct c. unfold after_forEach. cbn.
  now rewrite app_nil_r, !andb_true_r.
Qed.

Lemma forEach_csp_run snapshot :
  forall acc w,
    forEach snapshot forEach_csp acc w
    = (Normal (acc ++ initialFields_of snapshot)%list,
       mkWorld (after_forEach snapshot (this w)) (events w)).
Proof.
  induction snapshot as [|csp rest IH]; intros acc [c evs].
  - cbn. now rewrite app_nil_r, after_forEach_nil.
  - cbn [forEach]. unfold bind at 1.
    assert (Hstep :
      forEach_csp acc csp (mkWorld c evs)
      = (Normal (acc ++ initialFields_of [csp])%list,
         mkWorld (after_forEach [csp] c) evs)).
    { destruct c, csp as [i n u a]. unfold forEach_csp, initialFields_of,
        after_forEach, present, inactive_records.
      cbn [map filter existsb DeveloperName IsActive].
      destruct (n =? UI_CONNECTOR) eqn:E1;
        [apply String.eqb_eq in E1; subst n; destruct a; cbn;
         now rewrite ?app_nil_r, ?andb_true_r, ?andb_false_r|].
      destruct (n =? UI_CONNECTOR_WSS) eqn:E2;
        [apply String.eqb_eq in E2; subst n; destruct a; cbn;
         now rewrite ?app_nil_r, ?andb_true_r, ?andb_false_r|].
      destruct (n =? TWILIO_FLEX) eqn:E3;
        [apply String.eqb_eq in E3; subst n; destruct a; cbn;
         now rewrite ?app_nil_r, ?andb_true_r, ?andb_false_r|].
      unfold Js.includes, catalog. cbn [existsb].
      rewrite E1, E2, E3.
      destruct a; cbn;
        now rewrite ?app_nil_r, ?andb_true_r, ?andb_false_r. }
    rewrite Hstep, IH. cbn [this events]. f_equal.
    + f_equal. rewrite <- app_assoc. f_equal.
      unfold initialFields_of. cbn [map filter].
      now destruct (Js.includes catalog (DeveloperName csp)).
    + f_equal. destruct c. unfold after_forEach, present, inactive_records.
      cbn [map filter existsb isLoading uiConnector uiConnectorWss
           inactiveTrustedUrlNames csps checkboxGroupValue
           isUIConnectorFieldVisible isUIConnectorWSFieldVisible
           isTwilioFlexFieldVisible isDataTableVisible isApplyBtnDisabled
           __wiredResult].
      rewrite !orb_false_r, !negb_orb, !andb_assoc.
      f_equal. rewrite <- app_assoc. f_equal.
      now destruct (negb (IsActive csp)).
Qed.

Lemma wiredResources_run result w :
  wiredResources result w
  = (Normal tt,
     mkWorld (after_wiredResources result (this w))
       (events w ++ wiredResources_log result)).
Proof.
  destruct w as [c evs], result as [d err].
  unfold wiredResources, after_wiredResources, wiredResources_log,
    snapshot_of.
  cbn [data error this events].
  assert (Hlog : forall (k : M unit) w0,
    (when (match err with Some _ => true | None => false end)
       (emit (ConsoleError "Error checking if external client app exists:"))
     ;; k) w0
    = k (mkWorld (this w0)
           (events w0 ++ match err with
                         | Some _ =>
                           [ConsoleError
                              "Error checking if external client app exists:"]
                         | None => []
                         end))).
  { intros k [c0 e0]. destruct err; cbn; [reflexivity|].
    now rewrite app_nil_r. }
  unfold bind at 1. cbn [set___wiredResult modify this events].
  rewrite Hlog. cbn [this events].
  destruct d as [[|csp rest]|].
  - destruct c; cbn. now rewrite app_nil_r, !andb_true_r.
  - set (snapshot := csp :: rest).
    unfold bind at 1. cbn [set_csps modify this events].
    unfold bind at 1. cbn [get this events csps].
    unfold bind at 1. rewrite forEach_csp_run. cbn [this events app].
    unfold bind, set_isDataTableVisible, set_isApplyBtnDisabled, modify.
    cbn [this events fst snd].
    unfold Js.some, Js.every, after_forEach.
    cbn [existsb forallb isLoading uiConnector uiConnectorWss
         inactiveTrustedUrlNames csps checkboxGroupValue
         isUIConnectorFieldVisible isUIConnectorWSFieldVisible
         isTwilioFlexFieldVisible isDataTableVisible isApplyBtnDisabled
         __wiredResult].
    rewrite !includes_initialFields_of by reflexivity.
    now rewrite orb_false_r, andb_true_r, orb_assoc, andb_assoc.
  - destruct c; cbn. now rewrite app_nil_r, !andb_true_r.
Qed.

Lemma this_after_wiredResources result c :
  this_after (wiredResources result) c = after_wiredResources result c.
Proof. unfold this_after, run. now rewrite wiredResources_run. Qed.

(** Processing a snapshot leaves the form input alone. *)
Lemma wiredResources_form_input result c :
  uiConnector (this_after (wiredResources result) c) = uiConnector c
  /\ uiConnectorWss (this_after (wiredResources result) c) = uiConnectorWss c
  /\ checkboxGroupValue (this_after (wiredResources result) c)
     = checkboxGroupValue c.
Proof. rewrite this_after_wiredResources. now cbn. Qed.

(** ** The wire handler: inactive names and flags *)

(** Running the handler a second time on the same result appends the same
    inactive names once more; everything else is as after the first run. *)
Lemma wiredResources_twice result c :
  let once := this_after (wiredResources result) c in
  let twice := this_after (wiredResources result) once in
  view twice = view once
  /\ csps twice = csps once
  /\ __wiredResult twice = __wiredResult once
  /\ form_input twice = form_input once
  /\ inactiveTrustedUrlNames twice
     = (inactiveTrustedUrlNames once
          ++ map DeveloperName (inactive_records (snapshot_of result)))%list.
Proof.
  cbn zeta. rewrite !this_after_wiredResources.
  unfold view, form_input, after_wiredResources.
  cbn [isLoading uiConnector uiConnectorWss
       inactiveTrustedUrlNames csps checkboxGroupValue
       isUIConnectorFieldVisible isUIConnectorWSFieldVisible
       isTwilioFlexFieldVisible isDataTableVisible isApplyBtnDisabled
       __wiredResult].
  repeat split.
  - rewrite <- !andb_assoc, !andb_diag.
    now destruct (snapshot_of result).
  - now destruct (snapshot_of result).
Qed.

(** C3 (defect).  Processing one snapshot, holding a single inactive
    record named ui_connector, twice: the inactive-name list, the inactive
    count and the banner text of the second run differ from those of the
    first, because [inactiveTrustedUrlNames] is pushed on and never
    emptied.  The flags and the records are the same after both runs. *)
Theorem C3_inactive_names_accumulate :
  let once := this_after (wiredResources (wire [csp_ui_inactive])) initial in
  let twice := this_after (wiredResources (wire [csp_ui_inactive])) once in
  inactiveTrustedUrlNames once = ["ui_connector"]
  /\ numberOfInactiveUrls once = 1
  /\ inactiveTrustedUrlNames twice = ["ui_connector"; "ui_connector"]
  /\ numberOfInactiveUrls twice = 2
  /\ inactiveUrlNames twice = "ui_connector, ui_connector"
  /\ view twice = view once.
Proof. cbv. repeat split. Qed.

(** C4, as stated, fails: a record that is not active and whose name is
    none of the three sites is listed and counted, and two inactive
    records of one site are listed twice. *)
Lemma C4_counterexample :
  ~ (forall result,
       let c := this_after (wiredResources result) initial in
       Forall (fun n => In n catalog /\ present n (snapshot_of result) = true)
         (inactiveTrustedUrlNames c))
  /\ ~ (forall result,
          NoDup (inactiveTrustedUrlNames
                   (this_after (wiredResources result) initial)))
  /\ numberOfInactiveUrls
       (this_after (wiredResources (wire [csp_other_inactive])) initial) = 1.
Proof.
  split; [|split].
  - intros H. specialize (H (wire [csp_other_inactive])).
    cbv in H. inversion H as [|? ? [Hin _] _]; subst.
    repeat (destruct Hin as [Hin|Hin]; [discriminate Hin|]). exact Hin.
  - intros H. specialize (H (wire [csp_ui_inactive; csp_ui_inactive])).
    cbv in H. inversion H as [|? ? Hnotin _]; subst.
    apply Hnotin. now left.
  - reflexivity.
Qed.

(** C4, amended.  When a snapshot is processed on a fresh instance, the
    inactive names are the names of the records that are not active, one
    per record and in the order of the snapshot, whatever the name; the
    inactive count is the number of these records; and every inactive
    name is present in the snapshot. *)
Theorem C4_inactive_names_of_records : forall result,
  let c := this_after (wiredResources result) initial in
  inactiveTrustedUrlNames c
  = map DeveloperName (inactive_records (snapshot_of result))
  /\ numberOfInactiveUrls c = length (inactive_records (snapshot_of result))
  /\ Forall (fun n => present n (snapshot_of result) = true)
       (inactiveTrustedUrlNames c).
Proof.
  intros result. cbn zeta. rewrite this_after_wiredResources.
  unfold numberOfInactiveUrls, after_wiredResources.
  cbn [inactiveTrustedUrlNames initial app].
  repeat split.
  - now rewrite length_map.
  - apply Forall_forall. intros n Hn.
    apply in_map_iff in Hn. destruct Hn as [csp [Hname Hin]].
    apply filter_In in Hin. destruct Hin as [Hin _].
    unfold present. apply existsb_exists. exists csp. split; [exact Hin|].
    now apply String.eqb_eq.
Qed.

(** C5, as stated, fails after a snapshot that hid a field: an empty
    snapshot then leaves the field hidden and the data table shown, and a
    snapshot without ui_connector leaves the ui_connector field hidden
    although its site is absent. *)
Lemma C5_counterexample :
  ~ (forall history result,
       view_matches (snapshot_of result)
         (this_after (wiredResources result) (process history initial)))
  /\ view (this_after (wiredResources (wire []))
             (process [wire [csp_ui]] initial))
     = (false, true, true, true, false)
  /\ ~ view_matches (snapshot_of (wire []))
         (this_after (wiredResources (wire []))
            (process [wire [csp_ui]] initial))
  /\ isUIConnectorFieldVisible
       (this_after (wiredResources (wire [csp_flex]))
          (process [wire [csp_ui]] initial))
     = false
  /\ ~ view_matches (snapshot_of (wire [csp_flex]))
         (this_after (wiredResources (wire [csp_flex]))
            (process [wire [csp_ui]] initial)).
Proof.
  assert (Hempty :
    ~ view_matches (snapshot_of (wire []))
        (this_after (wiredResources (wire []))
           (process [wire [csp_ui]] initial))).
  { intros H. cbv in H. discriminate H. }
  assert (Hsticky :
    ~ view_matches (snapshot_of (wire [csp_flex]))
        (this_after (wiredResources (wire [csp_flex]))
           (process [wire [csp_ui]] initial))).
  { intros H. cbv in H. discriminate H. }
  repeat split; try assumption; try reflexivity.
  intros H. exact (Hempty (H [wire [csp_ui]] (wire []))).
Qed.

(** C5, amended.  After each snapshot is processed, on any instance:
    a field shows exactly when it showed before and its site is absent
    from the snapshot; when the snapshot holds a record, the data table
    shows exactly when some site is present and Apply is disabled exactly
    when all three are; when it holds none (or the data is not an array),
    the five flags are as they were.  On a fresh instance the flags agree
    with the snapshot in full, and an empty snapshot leaves the three
    fields shown, Apply enabled and the table hidden. *)
Theorem C5_view_after_each_snapshot :
  (forall c result,
     let snapshot := snapshot_of result in
     let c' := this_after (wiredResources result) c in
     isUIConnectorFieldVisible c'
     = isUIConnectorFieldVisible c && negb (present UI_CONNECTOR snapshot)
     /\ isUIConnectorWSFieldVisible c'
        = isUIConnectorWSFieldVisible c
          && negb (present UI_CONNECTOR_WSS snapshot)
     /\ isTwilioFlexFieldVisible c'
        = isTwilioFlexFieldVisible c && negb (present TWILIO_FLEX snapshot)
     /\ match snapshot with
        | [] => view c' = view c
        | _ =>
            isDataTableVisible c'
            = existsb (fun id => present id snapshot) catalog
            /\ isApplyBtnDisabled c'
               = forallb (fun id => present id snapshot) catalog
        end)
  /\ (forall result,
        view_matches (snapshot_of result)
          (this_after (wiredResources result) initial))
  /\ (forall err,
        view (this_after (wiredResources (mkWireResult (Some []) err)) initial)
        = (true, true, true, false, false))
  /\ (forall c err,
        view (this_after (wiredResources (mkWireResult (Some []) err)) c)
        = view c
        /\ view (this_after (wiredResources (mkWireResult None err)) c)
           = view c).
Proof.
  split; [|split; [|split]].
  - intros c result. cbn zeta. rewrite this_after_wiredResources.
    unfold view, after_wiredResources, catalog.
    cbn [isUIConnectorFieldVisible isUIConnectorWSFieldVisible
         isTwilioFlexFieldVisible isDataTableVisible isApplyBtnDisabled
         existsb forallb].
    repeat (split; [reflexivity|]).
    destruct (snapshot_of result) as [|csp rest].
    + cbn. now rewrite !andb_true_r.
    + set (s := csp :: rest).
      now destruct (present UI_CONNECTOR s), (present UI_CONNECTOR_WSS s),
        (present TWILIO_FLEX s).
  - intros result. rewrite this_after_wiredResources.
    unfold view_matches, view, after_wiredResources, catalog.
    cbn [isUIConnectorFieldVisible isUIConnectorWSFieldVisible
         isTwilioFlexFieldVisible isDataTableVisible isApplyBtnDisabled
         initial existsb forallb andb].
    destruct (snapshot_of result) as [|csp rest]; [reflexivity|].
    set (s := csp :: rest).
    now destruct (present UI_CONNECTOR s), (present UI_CONNECTOR_WSS s),
      (present TWILIO_FLEX s).
  - intros err. rewrite this_after_wiredResources. reflexivity.
  - intros c err. rewrite !this_after_wiredResources.
    unfold view, after_wiredResources. cbn.
    now rewrite !andb_true_r.
Qed.

(** ** Reading effects off a record *)

Lemma requests_app evs1 evs2 :
  requests (evs1 ++ evs2) = (requests evs1 ++ requests evs2)%list.
Proof.
  induction evs1 as [|e rest IH]; [reflexivity|].
  destruct e; cbn; now rewrite IH.
Qed.

Lemma toasts_app evs1 evs2 :
  toasts (evs1 ++ evs2) = (toasts evs1 ++ toasts evs2)%list.
Proof.
  induction evs1 as [|e rest IH]; [reflexivity|].
  destruct e; cbn; now rewrite IH.
Qed.

Lemma refreshes_app evs1 evs2 :
  refreshes (evs1 ++ evs2) = refreshes evs1 + refreshes evs2.
Proof.
  induction evs1 as [|e rest IH]; [reflexivity|].
  destruct e; cbn; now rewrite IH.
Qed.

Lemma requests_dispatch l : requests (map dispatch l) = l.
Proof.
  induction l as [|[u n] rest IH]; [reflexivity|].
  cbn. now rewrite IH.
Qed.

Lemma toasts_dispatch l : toasts (map dispatch l) = [].
Proof. induction l as [|r rest IH]; [reflexivity|exact IH]. Qed.

Lemma refreshes_dispatch l : refreshes (map dispatch l) = 0.
Proof. induction l as [|r rest IH]; [reflexivity|exact IH]. Qed.

Lemma toasts_wiredResources_log result :
  toasts (wiredResources_log result) = [].
Proof. unfold wiredResources_log. now destruct (error result). Qed.

Lemma refreshes_wiredResources_log result :
  refreshes (wiredResources_log result) = 0.
Proof. unfold wiredResources_log. now destruct (error result). Qed.

(** ** [onCreateTrustedUrls] *)

Lemma onCreateTrustedUrls_run env w :
  onCreateTrustedUrls env w
  = (Normal (batch env (this w)),
     mkWorld (this w)
       (events w ++ map dispatch (creation_requests (this w)))).
Proof.
  destruct w as [c evs].
  unfold onCreateTrustedUrls, batch, creation_requests, createTrustedSite,
    in_flight, dispatch, bind, get, emit, ret.
  cbn [this events].
  destruct (Js.truthy (uiConnector c)); cbn [this events];
    destruct (Js.truthy (uiConnectorWss c)); cbn [this events];
    destruct (Js.includes (checkboxGroupValue c) TWILIO_FLEX);
    cbn [this events app map fst snd];
    now rewrite <- ?app_assoc, ?app_nil_r.
Qed.

Lemma requested_eq env c :
  requested env c = map snd (creation_requests c).
Proof.
  unfold requested, events_of, run. rewrite onCreateTrustedUrls_run.
  cbn [snd events this app]. now rewrite requests_dispatch.
Qed.

Lemma creation_requests_wiredResources result c :
  creation_requests (this_after (wiredResources result) c)
  = creation_requests c.
Proof.
  destruct (wiredResources_form_input result c) as [H1 [H2 H3]].
  unfold creation_requests. now rewrite H1, H2, H3.
Qed.

Lemma truthy_nonempty s : Js.truthy s = true <-> s <> "".
Proof. destruct s; cbn; split; congruence. Qed.

Lemma In_creation_requests id c :
  In id (map snd (creation_requests c))
  <-> (id = UI_CONNECTOR /\ uiConnector c <> "")
      \/ (id = UI_CONNECTOR_WSS /\ uiConnectorWss c <> "")
      \/ (id = TWILIO_FLEX
          /\ Js.includes (checkboxGroupValue c) TWILIO_FLEX = true).
Proof.
  unfold creation_requests. rewrite <- !truthy_nonempty.
  destruct (Js.truthy (uiConnector c)), (Js.truthy (uiConnectorWss c)),
    (Js.includes (checkboxGroupValue c) TWILIO_FLEX);
    cbn [map app snd In]; intuition congruence.
Qed.

(** C1, as stated, fails: the admin types a URL for ui_connector, then a
    snapshot arrives in which ui_connector is present; the request list
    still holds a creation request for ui_connector. *)
Lemma C1_counterexample :
  ~ (forall env c result id,
       present id (snapshot_of result) = true ->
       ~ In id (requested env (this_after (wiredResources result) c))).
Proof.
  intros H.
  apply (H (mkEnv (fun _ _ => Resolved) (fun _ => Refetched None))
           (this_after (handleUrlChange UI_CONNECTOR "https://ui.example.com")
              initial)
           (wire [csp_ui]) UI_CONNECTOR).
  - reflexivity.
  - cbv. now left.
Qed.

(** C1, amended.  The request list is built from the form input alone:
    processing a snapshot does not change it, and it holds a creation
    request for ui_connector exactly when [uiConnector] is not empty, for
    ui_connector_wss exactly when [uiConnectorWss] is not empty, and for
    twilio_flex exactly when the checkbox value includes it, whether or
    not the site is present in the snapshot. *)
Theorem C1_requests_from_form_input_alone : forall env c result id,
  requested env (this_after (wiredResources result) c) = requested env c
  /\ (In id (requested env c)
      <-> (id = UI_CONNECTOR /\ uiConnector c <> "")
          \/ (id = UI_CONNECTOR_WSS /\ uiConnectorWss c <> "")
          \/ (id = TWILIO_FLEX
              /\ Js.includes (checkboxGroupValue c) TWILIO_FLEX = true)).
Proof.
  intros env c result id. split.
  - now rewrite !requested_eq, creation_requests_wiredResources.
  - rewrite requested_eq. apply In_creation_requests.
Qed.

(** ** [handleSubmit] *)

Lemma handleSubmit_catch_run e w :
  handleSubmit_catch e w
  = match catch_message (body e) with
    | Some m =>
        (Normal tt,
         mkWorld (with_isApplyBtnDisabled false (this w))
           (events w ++ [error_toast m; ConsoleError "Error creating site:"]))
    | None => (Throw TypeError, w)
    end.
Proof.
  destruct w as [c evs]. unfold handleSubmit_catch, error_toast.
  destruct (body e) as [|elems|[s|]]; cbn; try reflexivity;
    now rewrite <- app_assoc.
Qed.

Lemma handleSubmit_run env event c evs :
  valid event ->
  handleSubmit env event (mkWorld c evs) = submitted env c evs.
Proof.
  intros [Hform Hvalid]. unfold handleSubmit, submitted.
  rewrite Hform, Hvalid. cbn [negb].
  unfold bind at 1. cbn [set_isLoading modify this events].
  unfold bind at 1. cbn [set_isApplyBtnDisabled modify this events].
  fold (submitting c).
  assert (Hreq : creation_requests (submitting c) = creation_requests c)
    by reflexivity.
  assert (Hhandle : __wiredResult (submitting c) = __wiredResult c)
    by reflexivity.
  unfold try_catch_finally.
  unfold bind at 1. rewrite onCreateTrustedUrls_run.
  cbn [this events]. rewrite Hreq.
  change (batch env (submitting c)) with (batch env c).
  destruct (batch env c) as [|e] eqn:Hall.
  - unfold bind at 1. cbn [await ret].
    unfold bind at 1. cbn [showToast emit this events].
    unfold bind at 1. cbn [get this events]. rewrite Hhandle.
    unfold bind at 1. unfold refreshApex at 1.
    unfold bind at 1. cbn [emit this events].
    destruct (apex_refresh env (__wiredResult c)) as [[fresh|]|e] eqn:Href.
    + unfold bind at 1. rewrite wiredResources_run. cbn [ret this events].
      cbn. unfold success_toast.
      now rewrite <- !app_assoc.
    + cbn. unfold success_toast. now rewrite <- !app_assoc, app_nil_r.
    + cbn [ret await bind throw]. rewrite handleSubmit_catch_run.
      unfold caught. cbn [this events].
      destruct (catch_message (body e)); cbn; unfold success_toast;
        now rewrite <- !app_assoc.
  - unfold bind at 1. cbn [await throw].
    rewrite handleSubmit_catch_run. unfold caught. cbn [this events].
    now destruct (catch_message (body e)).
Qed.

Lemma handleSubmit_not_form env event w :
  target_is_form event = false ->
  handleSubmit env event w
  = (Normal tt,
     mkWorld (this w)
       (events w
          ++ [ConsoleError
                "Event target must be instanceof HTMLFormElement."])).
Proof. intros H. unfold handleSubmit. now rewrite H. Qed.

Lemma this_after_handleSubmit env event c :
  valid event ->
  this_after (handleSubmit env event) c = this (snd (submitted env c [])).
Proof. intros H. unfold this_after, run. now rewrite handleSubmit_run. Qed.

Lemma events_of_handleSubmit env event c :
  valid event ->
  events_of (handleSubmit env event) c = events (snd (submitted env c [])).
Proof. intros H. unfold events_of, run. now rewrite handleSubmit_run. Qed.

Lemma completion_of_handleSubmit env event c :
  valid event ->
  completion_of (handleSubmit env event) c = fst (submitted env c []).
Proof. intros H. unfold completion_of, run. now rewrite handleSubmit_run. Qed.

Lemma requests_refetched_log fresh : requests (refetched_log fresh) = [].
Proof.
  destruct fresh as [result|]; [|reflexivity].
  unfold refetched_log, wiredResources_log. now destruct (error result).
Qed.

(** Whatever happens next, a valid submission dispatches the creation
    requests built from the form input and no other. *)
Lemma requests_submitted env c :
  requests (events (snd (submitted env c []))) = creation_requests c.
Proof.
  unfold submitted, caught.
  destruct (batch env c) as [|e].
  - destruct (apex_refresh env (__wiredResult c)) as [fresh|e].
    + cbn [snd events app]. rewrite !requests_app, requests_dispatch,
        requests_refetched_log. cbn. now rewrite !app_nil_r.
    + destruct (catch_message (body e)); cbn [snd events app];
        rewrite !requests_app, requests_dispatch; cbn;
        now rewrite !app_nil_r.
  - destruct (catch_message (body e)); cbn [snd events app];
      rewrite ?requests_app, requests_dispatch; cbn;
      now rewrite ?app_nil_r.
Qed.

Lemma settles_before_In p q settled :
  In q (settles_before p settled) <-> q = p \/ In q settled.
Proof.
  induction settled as [|r rest IH]; cbn.
  - intuition.
  - destruct (settles_at p <=? settles_at r)%nat; cbn; [intuition|].
    rewrite IH. intuition.
Qed.

Lemma in_settlement_order_In q creators :
  In q (in_settlement_order creators) <-> In q creators.
Proof.
  induction creators as [|p rest IH]; cbn; [reflexivity|].
  rewrite settles_before_In, IH. intuition.
Qed.

Lemma Promise_all_Forall ps :
  Forall (fun p => p = Resolved) ps -> Promise_all ps = Resolved.
Proof.
  induction 1 as [|p rest Hp _ IH]; [reflexivity|]. now subst p.
Qed.

Lemma Promise_all_Exists ps :
  Exists (fun p => p <> Resolved) ps ->
  exists e, In (Rejected e) ps /\ Promise_all ps = Rejected e.
Proof.
  induction ps as [|p rest IH]; intros H; [inversion H|].
  destruct p as [|e]; cbn.
  - inversion H as [? ? Hbad|? ? Hrest]; subst; [congruence|].
    destruct (IH Hrest) as [e [Hin Hall]]. exists e. split; [now right|easy].
  - exists e. split; [now left|reflexivity].
Qed.

Lemma In_settled env l p :
  In p (map outcome (in_settlement_order (map (in_flight env) l)))
  <-> exists r, In r l /\ settle env r = p.
Proof.
  rewrite in_map_iff. split.
  - intros [q [Hq Hin]]. rewrite in_settlement_order_In in Hin.
    apply in_map_iff in Hin. destruct Hin as [r [Hr Hin]].
    exists r. split; [exact Hin|]. unfold settle. now rewrite Hr.
  - intros [r [Hin Hr]]. exists (in_flight env r). split; [exact Hr|].
    rewrite in_settlement_order_In. now apply in_map.
Qed.

(** The batch resolves when every creation does, whatever the order. *)
Lemma batch_resolved env c :
  Forall (fun r => settle env r = Resolved) (creation_requests c) ->
  batch env c = Resolved.
Proof.
  intros H. unfold batch. apply Promise_all_Forall.
  apply Forall_forall. intros p Hp. apply In_settled in Hp.
  destruct Hp as [r [Hin Hr]]. rewrite Forall_forall in H.
  now rewrite <- Hr, (H r Hin).
Qed.

(** The batch is rejected when some creation is, with the rejection
    value of one of the rejected creations. *)
Lemma batch_rejected env c :
  Exists (fun r => settle env r <> Resolved) (creation_requests c) ->
  exists r e,
    In r (creation_requests c) /\ settle env r = Rejected e
    /\ batch env c = Rejected e.
Proof.
  intros H. unfold batch.
  destruct (Promise_all_Exists
              (map outcome
                 (in_settlement_order
                    (map (in_flight env) (creation_requests c)))))
    as [e [Hin Hall]].
  - apply Exists_exists in H. destruct H as [r [Hin Hr]].
    apply Exists_exists. exists (settle env r). split; [|exact Hr].
    apply In_settled. now exists r.
  - apply In_settled in Hin. destruct Hin as [r [Hin Hr]].
    now exists r, e.
Qed.

(** Whether the batch resolves does not depend on the order in which the
    promises settle. *)
Lemma batch_resolved_iff env c :
  batch env c = Resolved
  <-> Promise_all (map (settle env) (creation_requests c)) = Resolved.
Proof.
  assert (Hall : forall ps,
    Promise_all ps = Resolved <-> Forall (fun p => p = Resolved) ps).
  { intros ps. split; [|apply Promise_all_Forall].
    induction ps as [|p rest IH]; intros H; [constructor|].
    destruct p; [|discriminate H]. constructor; [reflexivity|now apply IH]. }
  unfold batch. rewrite !Hall, !Forall_forall. split.
  - intros H p Hp. apply H. apply In_settled.
    apply in_map_iff in Hp. destruct Hp as [r [Hr Hin]]. now exists r.
  - intros H p Hp. apply In_settled in Hp. destruct Hp as [r [Hin Hr]].
    apply H. rewrite <- Hr. now apply in_map.
Qed.

(** A checkbox value made of the values of [options] that does not
    include twilio_flex is empty. *)
Lemma checkbox_without_flex cb :
  Forall (fun v => In v (map value options)) cb ->
  Js.includes cb TWILIO_FLEX = false ->
  cb = [].
Proof.
  intros Hall Hnot. destruct cb as [|v rest]; [reflexivity|].
  inversion Hall as [|? ? Hv _]; subst.
  cbn in Hv. destruct Hv as [Hv|[]]. subst v.
  unfold Js.includes in Hnot. cbn [existsb] in Hnot.
  now rewrite String.eqb_refl in Hnot.
Qed.

(** ** [handleSubmit], suspended *)

Lemma handler_run h w :
  handler h w
  = (Normal tt,
     mkWorld (after_handler (this w) h) (events w ++ handler_log h)).
Proof.
  destruct h as [name value_|detail_value|result]; cbn [handler].
  - destruct w as [c evs]. unfold handleUrlChange, after_handler, handler_log.
    cbn [this events]. rewrite app_nil_r.
    destruct (name =? UI_CONNECTOR); [reflexivity|].
    now destruct (name =? UI_CONNECTOR_WSS).
  - destruct w as [c evs]. cbn. now rewrite app_nil_r.
  - apply wiredResources_run.
Qed.

Lemma handlers_run hs w :
  handlers hs w
  = (Normal tt,
     mkWorld (after_handlers hs (this w)) (events w ++ handlers_log hs)).
Proof.
  revert w. induction hs as [|h rest IH]; intros w.
  - destruct w as [c evs]. cbn. now rewrite app_nil_r.
  - cbn [handlers]. unfold bind. rewrite handler_run, IH.
    cbn [this events after_handlers fold_left handlers_log flat_map].
    now rewrite <- app_assoc.
Qed.

Lemma handleSubmit_during_run during env event c evs :
  valid event ->
  handleSubmit_during during env event (mkWorld c evs)
  = submitted_during during env c evs.
Proof.
  intros [Hform Hvalid]. unfold handleSubmit_during, submitted_during.
  rewrite Hform, Hvalid. cbn [negb].
  unfold bind at 1. cbn [set_isLoading modify this events].
  unfold bind at 1. cbn [set_isApplyBtnDisabled modify this events].
  fold (submitting c).
  assert (Hreq : creation_requests (submitting c) = creation_requests c)
    by reflexivity.
  unfold try_catch_finally.
  unfold bind at 1. rewrite onCreateTrustedUrls_run.
  cbn [this events]. rewrite Hreq.
  change (batch env (submitting c)) with (batch env c).
  unfold await_during.
  unfold bind at 1. unfold bind at 1. rewrite handlers_run.
  cbn [this events]. rewrite <- app_assoc.
  set (c1 := after_handlers (while_creating during) (submitting c)).
  destruct (batch env c) as [|e] eqn:Hall.
  - cbn [await ret].
    unfold bind at 1. cbn [showToast emit this events].
    unfold bind at 1. cbn [get this events].
    unfold bind at 1. unfold refreshApex at 1.
    unfold bind at 1. cbn [emit this events].
    destruct (apex_refresh env (__wiredResult c1)) as [[fresh|]|e] eqn:Href.
    + unfold bind at 1. rewrite wiredResources_run. cbn [ret this events].
      unfold bind at 1. unfold bind at 1. rewrite handlers_run.
      cbn [this events await ret]. cbn. unfold success_toast.
      now rewrite <- !app_assoc.
    + cbn [ret]. unfold bind at 1. unfold bind at 1. rewrite handlers_run.
      cbn [this events await ret]. cbn. unfold success_toast.
      now rewrite <- !app_assoc.
    + cbn [ret]. unfold bind at 1. unfold bind at 1. rewrite handlers_run.
      cbn [this events await throw]. rewrite handleSubmit_catch_run.
      unfold caught. cbn [this events].
      destruct (catch_message (body e)); cbn; unfold success_toast;
        now rewrite <- !app_assoc.
  - cbn [await throw].
    rewrite handleSubmit_catch_run. unfold caught. cbn [this events].
    now destruct (catch_message (body e)).
Qed.

Lemma handleSubmit_undisturbed env event w :
  handleSubmit_during undisturbed env event w = handleSubmit env event w.
Proof.
  unfold handleSubmit_during, handleSubmit.
  destruct (target_is_form event); [|reflexivity].
  destruct (checkValidity event); reflexivity.
Qed.

Lemma this_after_handleSubmit_during during env event c :
  valid event ->
  this_after (handleSubmit_during during env event) c
  = this (snd (submitted_during during env c [])).
Proof.
  intros H. unfold this_after, run. now rewrite handleSubmit_during_run.
Qed.

Lemma events_of_handleSubmit_during during env event c :
  valid event ->
  events_of (handleSubmit_during during env event) c
  = events (snd (submitted_during during env c [])).
Proof.
  intros H. unfold events_of, run. now rewrite handleSubmit_during_run.
Qed.

Lemma completion_of_handleSubmit_during during env event c :
  valid event ->
  completion_of (handleSubmit_during during env event) c
  = fst (submitted_during during env c []).
Proof.
  intros H. unfold completion_of, run. now rewrite handleSubmit_during_run.
Qed.

Lemma requests_handlers_log hs : requests (handlers_log hs) = [].
Proof.
  induction hs as [|h rest IH]; [reflexivity|].
  cbn [handlers_log flat_map]. rewrite requests_app.
  fold (handlers_log rest). rewrite IH, app_nil_r.
  destruct h as [name value_|detail_value|result]; try reflexivity.
  cbn [handler_log]. unfold wiredResources_log. now destruct (error result).
Qed.

(** The handlers do not add to the requests of a submission: they are
    the ones built from the form input at the moment of the submission. *)
Lemma requests_submitted_during during env c :
  requests (events (snd (submitted_during during env c [])))
  = creation_requests c.
Proof.
  unfold submitted_during, caught.
  destruct (batch env c) as [|e].
  - destruct (apex_refresh env _) as [fresh|e].
    + cbn [snd events app].
      rewrite !requests_app, requests_dispatch, requests_refetched_log,
        !requests_handlers_log.
      cbn. now rewrite !app_nil_r.
    + destruct (catch_message (body e)); cbn [snd events app];
        rewrite !requests_app, requests_dispatch, !requests_handlers_log;
        cbn; now rewrite !app_nil_r.
  - destruct (catch_message (body e)); cbn [snd events app];
      rewrite ?requests_app, requests_dispatch, !requests_handlers_log;
      cbn; now rewrite !app_nil_r.
Qed.

Lemma wiredResult_after_handlers hs a b :
  __wiredResult a = __wiredResult b ->
  __wiredResult (after_handlers hs a) = __wiredResult (after_handlers hs b).
Proof.
  revert a b. induction hs as [|h rest IH]; intros a b Hab; [exact Hab|].
  cbn [after_handlers fold_left]. apply IH.
  destruct h as [name value_|detail_value|result]; cbn [after_handler].
  - destruct (name =? UI_CONNECTOR); [exact Hab|].
    destruct (name =? UI_CONNECTOR_WSS); exact Hab.
  - exact Hab.
  - reflexivity.
Qed.

Lemma unsubmitted_entries_are_empty c :
  let sent := map snd (creation_requests c) in
  (~ In UI_CONNECTOR sent -> uiConnector c = "")
  /\ (~ In UI_CONNECTOR_WSS sent -> uiConnectorWss c = "")
  /\ (~ In TWILIO_FLEX sent ->
      Js.includes (checkboxGroupValue c) TWILIO_FLEX = false).
Proof.
  cbn zeta. split; [|split]; intros Hn.
  - destruct (uiConnector c) eqn:E; [reflexivity|].
    exfalso. apply Hn. apply In_creation_requests. left.
    rewrite E. split; [reflexivity|discriminate].
  - destruct (uiConnectorWss c) eqn:E; [reflexivity|].
    exfalso. apply Hn. apply In_creation_requests. right. left.
    rewrite E. split; [reflexivity|discriminate].
  - destruct (Js.includes (checkboxGroupValue c) TWILIO_FLEX) eqn:E;
      [|reflexivity].
    exfalso. apply Hn. apply In_creation_requests. right. right.
    now split.
Qed.

(** C2, as stated, fails: a value typed into an entry that was not
    submitted, while the creation calls of the submission are in flight,
    is wiped by the resets of the success path. *)
Lemma C2_counterexample :
  ~ (forall during env event c fresh,
       valid event ->
       Forall (fun r => settle env r = Resolved)
         (requests (events_of (handleSubmit_during during env event) c)) ->
       apex_refresh env
         (__wiredResult (after_handlers (while_creating during) c))
       = Refetched fresh ->
       let c' := this_after (handleSubmit_during during env event) c in
       let edited :=
         after_handlers (while_creating during ++ while_refetching during)
           c in
       let sent :=
         map snd
           (requests (events_of (handleSubmit_during during env event) c)) in
       (In UI_CONNECTOR sent -> uiConnector c' = "")
       /\ (~ In UI_CONNECTOR sent -> uiConnector c' = uiConnector edited)
       /\ (In UI_CONNECTOR_WSS sent -> uiConnectorWss c' = "")
       /\ (~ In UI_CONNECTOR_WSS sent ->
           uiConnectorWss c' = uiConnectorWss edited)
       /\ (In TWILIO_FLEX sent -> input_twilioFlex (form_input c') = false)
       /\ (~ In TWILIO_FLEX sent ->
           input_twilioFlex (form_input c')
           = input_twilioFlex (form_input edited))).
Proof.
  intros H.
  specialize (H typing_wss env_ok submit_event typed_ui None).
  cbn zeta in H.
  destruct H as [_ [_ [_ [H _]]]].
  - split; reflexivity.
  - vm_compute. repeat constructor.
  - reflexivity.
  - assert (Hnot : ~ In UI_CONNECTOR_WSS
                     (map snd
                        (requests
                           (events_of
                              (handleSubmit_during typing_wss env_ok
                                 submit_event) typed_ui)))).
    { vm_compute. intros [Hin|Hin]; [discriminate Hin|exact Hin]. }
    specialize (H Hnot). vm_compute in H. discriminate H.
Qed.

(** C2, amended.  On a submission in which every creation call and the
    re-fetch succeed, whatever handlers run while the submission is in
    flight, every entry of the form input ends at its initial value (empty
    text, box not ticked): the entries that were part of the dispatched
    requests, and the others too.  An entry that was not part of the
    requests was empty (not ticked) when the requests were built, so it
    ends with the value it had at that moment, the checkbox value itself
    being the same when it is made of the values of [options]; what was
    edited into it while the submission was in flight is lost. *)
Theorem C2_success_resets_every_entry : forall during env event c fresh,
  valid event ->
  Forall (fun r => settle env r = Resolved)
    (requests (events_of (handleSubmit_during during env event) c)) ->
  apex_refresh env (__wiredResult (after_handlers (while_creating during) c))
  = Refetched fresh ->
  let c' := this_after (handleSubmit_during during env event) c in
  let sent :=
    map snd (requests (events_of (handleSubmit_during during env event) c)) in
  completion_of (handleSubmit_during during env event) c = Normal tt
  /\ uiConnector c' = ""
  /\ uiConnectorWss c' = ""
  /\ checkboxGroupValue c' = []
  /\ input_twilioFlex (form_input c') = false
  /\ (~ In UI_CONNECTOR sent ->
      uiConnector c = "" /\ uiConnector c' = uiConnector c)
  /\ (~ In UI_CONNECTOR_WSS sent ->
      uiConnectorWss c = "" /\ uiConnectorWss c' = uiConnectorWss c)
  /\ (~ In TWILIO_FLEX sent ->
      input_twilioFlex (form_input c) = false
      /\ input_twilioFlex (form_input c') = input_twilioFlex (form_input c)
      /\ (Forall (fun v => In v (map value options)) (checkboxGroupValue c)
          -> checkboxGroupValue c' = checkboxGroupValue c)).
Proof.
  intros during env event c fresh Hvalid Hall Href. cbn zeta.
  rewrite events_of_handleSubmit_during, requests_submitted_during in *
    by assumption.
  rewrite this_after_handleSubmit_during, completion_of_handleSubmit_during
    by assumption.
  unfold submitted_during.
  rewrite (batch_resolved _ _ Hall).
  rewrite (wiredResult_after_handlers (while_creating during)
             (submitting c) c eq_refl), Href.
  cbn [fst snd this].
  destruct (unsubmitted_entries_are_empty c) as [Hui [Hwss Hflex]].
  repeat split; try reflexivity.
  - now apply Hui.
  - cbn. now rewrite (Hui H).
  - now apply Hwss.
  - cbn. now rewrite (Hwss H).
  - now apply Hflex.
  - cbn. now rewrite (Hflex H).
  - intros Hopts. cbn. symmetry.
    now apply checkbox_without_flex; [|apply Hflex].
Qed.

(** The amended C2 at work: ui_connector was typed and submitted, and a
    URL for ui_connector_wss is typed while the creation is in flight. *)
Lemma C2_success_witness :
  let c' :=
    this_after (handleSubmit_during typing_wss env_ok submit_event)
      typed_ui in
  uiConnector typed_ui = "https://ui.example.com"
  /\ uiConnector c' = ""
  /\ uiConnectorWss c' = ""
  /\ checkboxGroupValue c' = checkboxGroupValue typed_ui.
Proof.
  pose proof (C2_success_resets_every_entry typing_wss env_ok submit_event
                typed_ui None) as H.
  cbn zeta in H.
  destruct H as [_ [Hui [Hwss [_ [_ [_ [_ Hflex]]]]]]].
  - split; reflexivity.
  - vm_compute. repeat constructor.
  - reflexivity.
  - split; [reflexivity|]. split; [exact Hui|]. split; [exact Hwss|].
    apply Hflex.
    + vm_compute. intros [H|H]; [discriminate H|exact H].
    + vm_compute. constructor.
Defined.

(** C8.  When the form does not validate, [handleSubmit] shows one toast,
    titled Error, whose message is a fixed text of the component, and
    returns: no creation request is dispatched, the wire is not
    re-fetched, and the instance is as it was. *)
Theorem C8_invalid_form_issues_no_call : forall env event c,
  target_is_form event = true ->
  checkValidity event = false ->
  events_of (handleSubmit env event) c
  = [ShowToastEvent "Error"
       "Form cannot be submitted due to errors. Please check your Trusted URL fields and try again."
       None]
  /\ requests (events_of (handleSubmit env event) c) = []
  /\ refreshes (events_of (handleSubmit env event) c) = 0
  /\ this_after (handleSubmit env event) c = c
  /\ completion_of (handleSubmit env event) c = Normal tt.
Proof.
  intros env event c Hform Hinvalid.
  unfold events_of, this_after, completion_of, run, handleSubmit.
  rewrite Hform, Hinvalid. cbn. repeat split.
Qed.

(** C8 at work: a filled form that does not validate, on a platform that
    would reject every creation. *)
Lemma C8_invalid_form_witness :
  requests (events_of (handleSubmit env_no_body invalid_event) typed_all) = []
  /\ this_after (handleSubmit env_no_body invalid_event) typed_all
     = typed_all.
Proof.
  destruct (C8_invalid_form_issues_no_call env_no_body invalid_event
              typed_all) as [_ [Hreq [_ [Hthis _]]]].
  - reflexivity.
  - reflexivity.
  - split; [exact Hreq|exact Hthis].
Defined.

(** ** Settings links *)

Lemma substring_all s : substring 0 (String.length s) s = s.
Proof. induction s as [|a s IH]; [reflexivity|]. cbn. now rewrite IH. Qed.

Lemma substring_cut n : forall s,
  n <= String.length s ->
  s = substring 0 n s ++ substring n (String.length s - n) s.
Proof.
  induction n as [|n IH]; intros s Hn.
  - rewrite Nat.sub_0_r, substring_all. now destruct s.
  - destruct s as [|a s]; [cbn in Hn; lia|].
    cbn in Hn. cbn. f_equal. apply IH. lia.
Qed.

Lemma length_substring n m : forall s,
  n + m <= String.length s -> String.length (substring n m s) = m.
Proof.
  revert m. induction n as [|n IH]; intros m s H.
  - revert s H. induction m as [|m IHm]; intros s H.
    + now destruct s.
    + destruct s as [|a s]; [cbn in H; lia|].
      cbn in H. cbn. f_equal. apply IHm. lia.
  - destruct s as [|a s]; [cbn in H; lia|].
    cbn in H. cbn. apply IH. lia.
Qed.

(** [s.slice(0, -3)] keeps all of [s] but its last three characters (all
    of them when [s] has fewer than three). *)
Lemma slice_drops_last_three s :
  exists dropped,
    s = Js.slice s 0 (-3) ++ dropped
    /\ String.length dropped = Nat.min 3 (String.length s).
Proof.
  unfold Js.slice. cbv zeta.
  set (len := Z.of_nat (String.length s)).
  assert (H0 : Js.clamp len 0 = 0%Z).
  { unfold Js.clamp. change (0 <? 0)%Z with false. cbv iota. lia. }
  assert (H3 : Js.clamp len (-3) = Z.max (len - 3) 0).
  { unfold Js.clamp. change (-3 <? 0)%Z with true. cbv iota. lia. }
  rewrite H0, H3. change (Z.to_nat 0) with 0.
  replace (Z.to_nat (Z.max (Z.max (len - 3) 0 - 0) 0))
    with (String.length s - 3) by (subst len; lia).
  exists (substring (String.length s - 3)
            (String.length s - (String.length s - 3)) s).
  split.
  - apply substring_cut. lia.
  - rewrite length_substring by lia. lia.
Qed.

(** C9.  Each row of the data table links to
    /lightning/setup/SecurityCspTrustedSite/page?address=%2F followed by
    the Id of its record without its last three characters, and the
    External Client App link embeds [ecaId] without its last three
    characters in the same way.  (An identifier shorter than three
    characters is dropped whole.) *)
Theorem C9_settings_links_drop_last_three :
  (forall c,
     Forall2
       (fun csp row =>
          exists kept dropped,
            Id csp = kept ++ dropped
            /\ String.length dropped = Nat.min 3 (String.length (Id csp))
            /\ kept = Js.slice (Id csp) 0 (-3)
            /\ settingsUrl row
               = "/lightning/setup/SecurityCspTrustedSite/page?address=%2F"
                   ++ kept)
       (csps c) (dataTableData c))
  /\ (forall eca,
        exists kept dropped,
          ExternalClientAppForm.ecaId eca = kept ++ dropped
          /\ String.length dropped
             = Nat.min 3 (String.length (ExternalClientAppForm.ecaId eca))
          /\ kept = Js.slice (ExternalClientAppForm.ecaId eca) 0 (-3)
          /\ ExternalClientAppForm.handleNavigateToEcaSettings eca
             = [ExternalClientAppForm.WindowOpen
                  ("/lightning/setup/ManageExternalClientApplication/"
                     ++ kept ++ "/detail/")
                  "_blank"]).
Proof.
  split.
  - intros c. unfold dataTableData.
    induction (csps c) as [|csp rest IH]; constructor; [|exact IH].
    destruct (slice_drops_last_three (Id csp)) as [dropped [Hcut Hlen]].
    exists (Js.slice (Id csp) 0 (-3)), dropped. now repeat split.
  - intros eca.
    destruct (slice_drops_last_three (ExternalClientAppForm.ecaId eca))
      as [dropped [Hcut Hlen]].
    exists (Js.slice (ExternalClientAppForm.ecaId eca) 0 (-3)), dropped.
    now repeat split.
Qed.

Example settings_link :
  map settingsUrl (dataTableData (this_after (wiredResources (wire [csp_ui]))
                                    initial))
  = ["/lightning/setup/SecurityCspTrustedSite/page?address=%2F0BsXX0000000001"].
Proof. reflexivity. Qed.

(** ** Failed submissions *)

(** The message of the [catch] block, by the shape of the body. *)
Lemma catch_message_shapes :
  (forall elems,
     catch_message (BodyArray elems)
     = Some (Js.join (map elem_message elems) ", "))
  /\ (forall s, catch_message (BodyObject (Some s)) = Some s)
  /\ catch_message (BodyObject None) = Some "Unknown error"
  /\ catch_message BodyUndefined = None.
Proof. repeat split. Qed.

Lemma catch_message_defined b :
  b <> BodyUndefined -> exists m, catch_message b = Some m.
Proof.
  destruct b as [|elems|[s|]]; intros H; [congruence| | |];
    eexists; reflexivity.
Qed.

(** Once the [catch] block is entered, the form input is what it was at
    that moment and nothing more is asked of the platform, whatever the
    caught value; the block shows its toast when it can build the
    message and raises a [TypeError] when the value has no body. *)
Lemma caught_keeps_input e c evs :
  let r := caught e c evs in
  uiConnector (this (snd r)) = uiConnector c
  /\ uiConnectorWss (this (snd r)) = uiConnectorWss c
  /\ checkboxGroupValue (this (snd r)) = checkboxGroupValue c
  /\ csps (this (snd r)) = csps c
  /\ isLoading (this (snd r)) = false
  /\ requests (events (snd r)) = requests evs
  /\ refreshes (events (snd r)) = refreshes evs.
Proof.
  unfold caught. destruct (catch_message (body e)); cbn [snd this events].
  - rewrite requests_app, refreshes_app. cbn.
    now rewrite app_nil_r, Nat.add_0_r.
  - now repeat split.
Qed.

Lemma caught_with_body e c evs :
  body e <> BodyUndefined ->
  exists m,
    catch_message (body e) = Some m
    /\ fst (caught e c evs) = Normal tt
    /\ isApplyBtnDisabled (this (snd (caught e c evs))) = false
    /\ toasts (events (snd (caught e c evs)))
       = (toasts evs
            ++ [("Error", ("Error creating site: " ++ m)%string,
                 Some "error")])%list.
Proof.
  intros Hbody. destruct (catch_message_defined _ Hbody) as [m Hm].
  exists m. unfold caught. rewrite Hm. cbn [fst snd this events].
  rewrite toasts_app. now repeat split.
Qed.

Lemma caught_without_body e c evs :
  body e = BodyUndefined ->
  caught e c evs = (Throw TypeError, mkWorld (with_isLoading false c) evs).
Proof. intros Hbody. unfold caught. now rewrite Hbody. Qed.

(** A submission in which a creation request fails: the form input and
    the records are as they were, the wire is not re-fetched, and, when
    the rejection value has a body, exactly one toast is shown, the Error
    toast with the message built from that body. *)
Lemma handleSubmit_creation_rejected env event c :
  valid event ->
  Exists (fun r => settle env r <> Resolved) (creation_requests c) ->
  let c' := this_after (handleSubmit env event) c in
  let evs := events_of (handleSubmit env event) c in
  uiConnector c' = uiConnector c
  /\ uiConnectorWss c' = uiConnectorWss c
  /\ checkboxGroupValue c' = checkboxGroupValue c
  /\ csps c' = csps c
  /\ refreshes evs = 0
  /\ exists r e,
       In r (creation_requests c) /\ settle env r = Rejected e
       /\ (body e <> BodyUndefined ->
           exists m,
             catch_message (body e) = Some m
             /\ toasts evs = [("Error", "Error creating site: " ++ m,
                               Some "error")]
             /\ completion_of (handleSubmit env event) c = Normal tt)
       /\ (body e = BodyUndefined ->
           toasts evs = []
           /\ completion_of (handleSubmit env event) c = Throw TypeError).
Proof.
  intros Hvalid Hbad. cbn zeta.
  destruct (batch_rejected _ _ Hbad) as [r [e [Hin [Hr Hall]]]].
  rewrite this_after_handleSubmit, events_of_handleSubmit,
    completion_of_handleSubmit by assumption.
  unfold submitted. rewrite Hall. cbn [app].
  destruct (caught_keeps_input e (submitting c)
              (map dispatch (creation_requests c)))
    as [H1 [H2 [H3 [H4 [_ [_ H5]]]]]].
  rewrite refreshes_dispatch in H5.
  repeat (split; [assumption|]).
  exists r, e. repeat (split; [assumption|]). split.
  - intros Hbody.
    destruct (caught_with_body e (submitting c)
                (map dispatch (creation_requests c)) Hbody)
      as [m [Hm [Hc [_ Ht]]]].
    rewrite toasts_dispatch in Ht. now exists m.
  - intros Hbody. rewrite caught_without_body by assumption.
    cbn [fst snd events]. now rewrite toasts_dispatch.
Qed.

(** A submission whose creation requests all succeed and whose re-fetch
    is rejected: the Success toast is shown before the re-fetch is asked
    for, the form input is kept, and, when the rejection value has a body,
    the Error toast follows. *)
Lemma handleSubmit_refetch_rejected env event c e :
  valid event ->
  Forall (fun r => settle env r = Resolved) (creation_requests c) ->
  apex_refresh env (__wiredResult c) = RefetchRejected e ->
  let c' := this_after (handleSubmit env event) c in
  let evs := events_of (handleSubmit env event) c in
  uiConnector c' = uiConnector c
  /\ uiConnectorWss c' = uiConnectorWss c
  /\ checkboxGroupValue c' = checkboxGroupValue c
  /\ (exists rest,
        evs = (map dispatch (creation_requests c)
                 ++ success_toast :: RefreshApex (__wiredResult c) :: rest)%list)
  /\ (body e <> BodyUndefined ->
      exists m,
        catch_message (body e) = Some m
        /\ toasts evs
           = [("Success", "Trusted Site created successfully", Some "success");
              ("Error", "Error creating site: " ++ m, Some "error")]
        /\ completion_of (handleSubmit env event) c = Normal tt)
  /\ (body e = BodyUndefined ->
      toasts evs
      = [("Success", "Trusted Site created successfully", Some "success")]
      /\ completion_of (handleSubmit env event) c = Throw TypeError).
Proof.
  intros Hvalid Hall Href. cbn zeta.
  rewrite this_after_handleSubmit, events_of_handleSubmit,
    completion_of_handleSubmit by assumption.
  unfold submitted. rewrite (batch_resolved _ _ Hall), Href.
  cbn [app].
  set (evs2 := (map dispatch (creation_requests c)
                  ++ [success_toast; RefreshApex (__wiredResult c)])%list).
  destruct (caught_keeps_input e (submitting c) evs2)
    as [H1 [H2 [H3 _]]].
  repeat (split; [assumption|]).
  assert (Ht2 : toasts evs2
                = [("Success", "Trusted Site created successfully",
                    Some "success")]).
  { unfold evs2. rewrite toasts_app, toasts_dispatch. reflexivity. }
  split; [|split].
  - unfold caught, evs2. destruct (catch_message (body e));
      cbn [snd events]; rewrite <- ?app_assoc; eexists; reflexivity.
  - intros Hbody.
    destruct (caught_with_body e (submitting c) evs2 Hbody)
      as [m [Hm [Hc [_ Ht]]]].
    rewrite Ht2 in Ht. now exists m.
  - intros Hbody. rewrite caught_without_body by assumption.
    cbn [fst snd events]. now split.
Qed.

(** Scenario D: three creation requests, one of which is rejected as a
    duplicate. *)
Example scenario_D :
  let c' := this_after (handleSubmit env_duplicate submit_event) typed_all in
  let evs := events_of (handleSubmit env_duplicate submit_event) typed_all in
  toasts evs = [("Error", "Error creating site: duplicate", Some "error")]
  /\ form_input c' = form_input typed_all
  /\ refreshes evs = 0
  /\ length (requests evs) = 3.
Proof. vm_compute. repeat split. Qed.

(** A re-fetch rejected with a message, after the creations succeeded. *)
Example refetch_rejected_with_message :
  let c' :=
    this_after (handleSubmit env_refetch_message submit_event) typed_ui in
  let evs :=
    events_of (handleSubmit env_refetch_message submit_event) typed_ui in
  toasts evs
  = [("Success", "Trusted Site created successfully", Some "success");
     ("Error", "Error creating site: offline", Some "error")]
  /\ uiConnector c' = "https://ui.example.com".
Proof. vm_compute. repeat split. Qed.

(** C6 (defect).  Three creation requests are dispatched and rejected
    with a value that has no body: the form input is kept and the wire
    is not re-fetched, but no notification at all is shown, because the
    [catch] block raises a [TypeError] when it reads [error.body.message]. *)
Theorem C6_no_notification_without_body :
  let c' := this_after (handleSubmit env_no_body submit_event) typed_all in
  let evs := events_of (handleSubmit env_no_body submit_event) typed_all in
  requests evs
  = [("https://ui.example.com", "ui_connector");
     ("wss://ui.example.com", "ui_connector_wss");
     ("https://flex.twilio.com", "twilio_flex")]
  /\ form_input c' = form_input typed_all
  /\ checkboxGroupValue c' = checkboxGroupValue typed_all
  /\ refreshes evs = 0
  /\ toasts evs = []
  /\ completion_of (handleSubmit env_no_body submit_event) typed_all
     = Throw TypeError.
Proof. vm_compute. repeat split. Qed.

(** C7 (defect).  A creation request is rejected with a value that has no
    body: [handleSubmit] does not show the Unknown error notification; the
    [catch] block raises a [TypeError], which leaves [handleSubmit], and
    the Apply button stays disabled. *)
Theorem C7_error_without_body_escapes :
  let c' := this_after (handleSubmit env_no_body submit_event) typed_ui in
  let evs := events_of (handleSubmit env_no_body submit_event) typed_ui in
  completion_of (handleSubmit env_no_body submit_event) typed_ui
  = Throw TypeError
  /\ evs = [CreateTrustedSite "https://ui.example.com" "ui_connector"]
  /\ toasts evs = []
  /\ isApplyBtnDisabled c' = true
  /\ isLoading c' = false.
Proof. vm_compute. repeat split. Qed.

(** C10 (defect).  The creation request succeeds and the re-fetch is
    rejected with a value that has no body: the Success toast has been
    shown before the re-fetch and the form input is kept, but no Error
    notification follows; the [catch] block raises a [TypeError]. *)
Theorem C10_refetch_rejected_without_body :
  let c' :=
    this_after (handleSubmit env_refetch_no_body submit_event) typed_ui in
  let evs :=
    events_of (handleSubmit env_refetch_no_body submit_event) typed_ui in
  evs = [CreateTrustedSite "https://ui.example.com" "ui_connector";
         success_toast; RefreshApex None]
  /\ toasts evs
     = [("Success", "Trusted Site created successfully", Some "success")]
  /\ uiConnector c' = "https://ui.example.com"
  /\ completion_of (handleSubmit env_refetch_no_body submit_event) typed_ui
     = Throw TypeError.
Proof. vm_compute. repeat split. Qed.

(** ** The wire handler over a history of results *)

Lemma process_cons result history c :
  process (result :: history) c
  = process history (after_wiredResources result c).
Proof.
  unfold process. cbn [fold_left]. now rewrite this_after_wiredResources.
Qed.

(** A field of the form shows, after any number of wire results, exactly
    when it showed before and its site was in none of them: once hidden, a
    field is never shown again. *)
Theorem field_hidden_once_present : forall history c,
  isUIConnectorFieldVisible (process history c)
  = isUIConnectorFieldVisible c && negb (ever_present UI_CONNECTOR history)
  /\ isUIConnectorWSFieldVisible (process history c)
     = isUIConnectorWSFieldVisible c
       && negb (ever_present UI_CONNECTOR_WSS history)
  /\ isTwilioFlexFieldVisible (process history c)
     = isTwilioFlexFieldVisible c
       && negb (ever_present TWILIO_FLEX history).
Proof.
  induction history as [|result rest IH]; intros c.
  - cbn. now rewrite !andb_true_r.
  - rewrite process_cons.
    destruct (IH (after_wiredResources result c)) as [H1 [H2 H3]].
    rewrite H1, H2, H3. unfold ever_present. cbn [existsb after_wiredResources
      isUIConnectorFieldVisible isUIConnectorWSFieldVisible
      isTwilioFlexFieldVisible].
    now rewrite !negb_orb, !andb_assoc.
Qed.

(** The inactive names after a history of wire results are those held
    before, followed by the names of the inactive records of each result
    in turn: nothing is ever removed, and the inactive count is the sum of
    the counts of all results processed so far. *)
Theorem inactive_names_over_history : forall history c,
  inactiveTrustedUrlNames (process history c)
  = (inactiveTrustedUrlNames c
       ++ flat_map
            (fun result =>
               map DeveloperName (inactive_records (snapshot_of result)))
            history)%list
  /\ numberOfInactiveUrls (process history c)
     = numberOfInactiveUrls c
       + list_sum
           (map (fun result => length (inactive_records (snapshot_of result)))
              history).
Proof.
  assert (Hnames : forall history c,
    inactiveTrustedUrlNames (process history c)
    = (inactiveTrustedUrlNames c
         ++ flat_map
              (fun result =>
                 map DeveloperName (inactive_records (snapshot_of result)))
              history)%list).
  { induction history as [|result rest IH]; intros c.
    - cbn. now rewrite app_nil_r.
    - rewrite process_cons, IH. cbn [flat_map after_wiredResources
        inactiveTrustedUrlNames]. now rewrite app_assoc. }
  intros history c. split; [apply Hnames|].
  unfold numberOfInactiveUrls. rewrite Hnames, length_app. f_equal.
  induction history as [|result rest IH]; [reflexivity|].
  cbn [flat_map map list_sum]. now rewrite length_app, length_map, IH.
Qed.

Lemma last_snapshot_cons result history before :
  last_snapshot (result :: history) before
  = last_snapshot history
      (match snapshot_of result with [] => before | s => s end).
Proof. reflexivity. Qed.

(** After any history of wire results the data table shows the records of
    the last result that carried any (a later empty result does not clear
    it), one row per record and in their order. *)
Theorem data_table_shows_last_snapshot : forall history c,
  csps (process history c) = last_snapshot history (csps c)
  /\ map developerName (dataTableData (process history c))
     = map DeveloperName (last_snapshot history (csps c))
  /\ map endpoint (dataTableData (process history c))
     = map EndpointUrl (last_snapshot history (csps c))
  /\ map isActive (dataTableData (process history c))
     = map IsActive (last_snapshot history (csps c)).
Proof.
  assert (Hcsps : forall history c,
    csps (process history c) = last_snapshot history (csps c)).
  { induction history as [|result rest IH]; intros c; [reflexivity|].
    rewrite process_cons, IH, last_snapshot_cons. f_equal.
    unfold after_wiredResources. cbn [csps].
    now destruct (snapshot_of result). }
  intros history c. split; [apply Hcsps|].
  unfold dataTableData. rewrite Hcsps, !map_map. now repeat split.
Qed.

(** On a component that only the wire handler has acted on, the flags
    agree with the records the data table shows: the table is visible
    exactly when one of the three sites is among them, Apply is disabled
    exactly when all three are, and the field of every site among them is
    hidden. *)
Theorem flags_agree_with_shown_records : forall history,
  let c := process history initial in
  isDataTableVisible c = existsb (fun id => present id (csps c)) catalog
  /\ isApplyBtnDisabled c = forallb (fun id => present id (csps c)) catalog
  /\ present UI_CONNECTOR (csps c) && isUIConnectorFieldVisible c = false
  /\ present UI_CONNECTOR_WSS (csps c) && isUIConnectorWSFieldVisible c
     = false
  /\ present TWILIO_FLEX (csps c) && isTwilioFlexFieldVisible c = false.
Proof.
  assert (Hinv : forall history c,
    (isDataTableVisible c = existsb (fun id => present id (csps c)) catalog
     /\ isApplyBtnDisabled c = forallb (fun id => present id (csps c)) catalog
     /\ (present UI_CONNECTOR (csps c) = true ->
         isUIConnectorFieldVisible c = false)
     /\ (present UI_CONNECTOR_WSS (csps c) = true ->
         isUIConnectorWSFieldVisible c = false)
     /\ (present TWILIO_FLEX (csps c) = true ->
         isTwilioFlexFieldVisible c = false)) ->
    let c' := process history c in
    isDataTableVisible c' = existsb (fun id => present id (csps c')) catalog
    /\ isApplyBtnDisabled c'
       = forallb (fun id => present id (csps c')) catalog
    /\ (present UI_CONNECTOR (csps c') = true ->
        isUIConnectorFieldVisible c' = false)
    /\ (present UI_CONNECTOR_WSS (csps c') = true ->
        isUIConnectorWSFieldVisible c' = false)
    /\ (present TWILIO_FLEX (csps c') = true ->
        isTwilioFlexFieldVisible c' = false)).
  { induction history as [|result rest IH]; intros c Hc; [exact Hc|].
    cbn zeta. rewrite process_cons. apply IH.
    destruct Hc as [Ht [Ha [H1 [H2 H3]]]].
    unfold after_wiredResources.
    cbn [csps isDataTableVisible isApplyBtnDisabled
         isUIConnectorFieldVisible isUIConnectorWSFieldVisible
         isTwilioFlexFieldVisible].
    destruct (snapshot_of result) as [|csp rest'] eqn:Hs.
    - cbn [present existsb negb]. rewrite !andb_true_r.
      now repeat split.
    - set (s := csp :: rest') in *. unfold catalog. cbn [existsb forallb].
      repeat split.
      + now destruct (present UI_CONNECTOR s), (present UI_CONNECTOR_WSS s),
          (present TWILIO_FLEX s).
      + now destruct (present UI_CONNECTOR s), (present UI_CONNECTOR_WSS s),
          (present TWILIO_FLEX s).
      + intros Hp. rewrite Hp. apply andb_false_r.
      + intros Hp. rewrite Hp. apply andb_false_r.
      + intros Hp. rewrite Hp. apply andb_false_r. }
  intros history.
  destruct (Hinv history initial) as [Ht [Ha [H1 [H2 H3]]]].
  { cbn. repeat split; discriminate. }
  cbn zeta. repeat (split; [assumption|]).
  split; [|split].
  - destruct (present UI_CONNECTOR (csps (process history initial)));
      [now rewrite H1|reflexivity].
  - destruct (present UI_CONNECTOR_WSS (csps (process history initial)));
      [now rewrite H2|reflexivity].
  - destruct (present TWILIO_FLEX (csps (process history initial)));
      [now rewrite H3|reflexivity].
Qed.

(** ** More on submissions *)

Lemma requests_of_handleSubmit env event c :
  valid event ->
  requests (events_of (handleSubmit env event) c) = creation_requests c.
Proof.
  intros H. rewrite events_of_handleSubmit by assumption.
  apply requests_submitted.
Qed.

Lemma requests_of_onCreateTrustedUrls env c :
  requests (events_of (onCreateTrustedUrls env) c) = creation_requests c.
Proof.
  unfold events_of, run. rewrite onCreateTrustedUrls_run.
  cbn [snd events this app]. apply requests_dispatch.
Qed.

(** [onCreateTrustedUrls] dispatches at most three creation requests, for
    distinct sites: the value typed for ui_connector, the value typed for
    ui_connector_wss and the fixed Twilio Flex URL.  It never asks for a
    site with an empty URL, and it leaves the instance as it was. *)
Theorem creation_requests_are_well_formed : forall env c,
  let reqs := requests (events_of (onCreateTrustedUrls env) c) in
  length reqs <= 3
  /\ NoDup (map snd reqs)
  /\ Forall (fun r => r = (uiConnector c, UI_CONNECTOR)
                      \/ r = (uiConnectorWss c, UI_CONNECTOR_WSS)
                      \/ r = ("https://flex.twilio.com", TWILIO_FLEX)) reqs
  /\ Forall (fun r => fst r <> "") reqs
  /\ this_after (onCreateTrustedUrls env) c = c.
Proof.
  intros env c. cbn zeta. rewrite requests_of_onCreateTrustedUrls.
  assert (Hthis : this_after (onCreateTrustedUrls env) c = c).
  { unfold this_after, run. now rewrite onCreateTrustedUrls_run. }
  assert (H12 : UI_CONNECTOR <> UI_CONNECTOR_WSS) by discriminate.
  assert (H13 : UI_CONNECTOR <> TWILIO_FLEX) by discriminate.
  assert (H23 : UI_CONNECTOR_WSS <> TWILIO_FLEX) by discriminate.
  split; [|split; [|split; [|split; [|exact Hthis]]]];
    unfold creation_requests;
    destruct (Js.truthy (uiConnector c)) eqn:E1;
    destruct (Js.truthy (uiConnectorWss c)) eqn:E2;
    destruct (Js.includes (checkboxGroupValue c) TWILIO_FLEX);
    cbn [app length map snd fst].
  all: try lia.
  all: try (repeat constructor; cbn [In]; now intuition).
  all: try (repeat constructor; cbn [fst]; now apply truthy_nonempty).
  all: repeat constructor; cbn [fst]; try (now apply truthy_nonempty);
    try discriminate; auto.
Qed.

(** Submitting a valid form in which nothing was typed and nothing was
    ticked creates nothing, and yet shows the Success toast first and
    re-fetches the wire once.  How the submission ends is decided by the
    re-fetch alone: it completes normally with that single toast when the
    re-fetch succeeds, it shows a second, Error toast when the re-fetch is
    rejected with a body, and it raises a [TypeError] when the re-fetch is
    rejected without a body. *)
Theorem empty_submission_reports_success : forall env event c,
  valid event ->
  uiConnector c = "" ->
  uiConnectorWss c = "" ->
  Js.includes (checkboxGroupValue c) TWILIO_FLEX = false ->
  let evs := events_of (handleSubmit env event) c in
  requests evs = []
  /\ refreshes evs = 1
  /\ match apex_refresh env (__wiredResult c) with
     | Refetched _ =>
         toasts evs
         = [("Success", "Trusted Site created successfully", Some "success")]
         /\ completion_of (handleSubmit env event) c = Normal tt
     | RefetchRejected e =>
         match catch_message (body e) with
         | Some m =>
             toasts evs
             = [("Success", "Trusted Site created successfully",
                 Some "success");
                ("Error", "Error creating site: " ++ m, Some "error")]
             /\ completion_of (handleSubmit env event) c = Normal tt
         | None =>
             toasts evs
             = [("Success", "Trusted Site created successfully",
                 Some "success")]
             /\ completion_of (handleSubmit env event) c = Throw TypeError
         end
     end.
Proof.
  intros env event c Hvalid Hu Hw Hf. cbn zeta.
  rewrite events_of_handleSubmit, completion_of_handleSubmit by assumption.
  assert (Hreq : creation_requests c = []).
  { unfold creation_requests. now rewrite Hu, Hw, Hf. }
  assert (Hall : batch env c = Resolved).
  { apply batch_resolved. rewrite Hreq. constructor. }
  unfold submitted, caught. rewrite Hall, Hreq.
  destruct (apex_refresh env (__wiredResult c)) as [fresh|e].
  - cbn [map app snd fst events].
    destruct fresh as [result|]; cbn [refetched_log app];
      [|now repeat split].
    unfold wiredResources_log. now destruct (error result).
  - now destruct (catch_message (body e)).
Qed.

(** The empty submission, on a fresh component. *)
Lemma empty_submission_witness :
  toasts (events_of (handleSubmit env_ok submit_event) initial)
  = [("Success", "Trusted Site created successfully", Some "success")].
Proof.
  exact (proj1 (proj2 (proj2
    (empty_submission_reports_success env_ok submit_event initial
       (conj eq_refl eq_refl) eq_refl eq_refl eq_refl)))).
Defined.

(** However a submission of a valid form goes, the loading flag is down
    when [handleSubmit] ends, and the only exception that can leave
    [handleSubmit] is the [TypeError] of its own [catch] block: a rejection
    value never does. *)
Theorem submission_always_ends_loading : forall env event c,
  valid event ->
  isLoading (this_after (handleSubmit env event) c) = false
  /\ (completion_of (handleSubmit env event) c = Normal tt
      \/ completion_of (handleSubmit env event) c = Throw TypeError).
Proof.
  intros env event c Hvalid.
  rewrite this_after_handleSubmit, completion_of_handleSubmit by assumption.
  unfold submitted, caught.
  destruct (batch env c) as [|e].
  - destruct (apex_refresh env (__wiredResult c)) as [fresh|e].
    + cbn. auto.
    + destruct (catch_message (body e)); cbn; auto.
  - destruct (catch_message (body e)); cbn; auto.
Qed.

(** A submission whose creations are rejected without a body: the flag is
    down although the exception leaves. *)
Lemma submission_always_ends_loading_witness :
  isLoading (this_after (handleSubmit env_no_body submit_event) typed_all)
  = false.
Proof.
  destruct (submission_always_ends_loading env_no_body submit_event typed_all)
    as [H _].
  - split; reflexivity.
  - exact H.
Defined.



(** On a valid form the wire is re-fetched, once, exactly when every
    creation request resolved, and the Success toast is shown in exactly
    that case; when a creation is rejected nothing is re-fetched and no
    Success toast is shown.  In all, at most two toasts are shown. *)
Theorem refetch_exactly_when_all_created : forall env event c,
  valid event ->
  let evs := events_of (handleSubmit env event) c in
  match Promise_all (map (settle env) (requests evs)) with
  | Resolved =>
      refreshes evs = 1
      /\ hd_error (toasts evs)
         = Some ("Success", "Trusted Site created successfully",
                 Some "success")
  | Rejected _ =>
      refreshes evs = 0
      /\ ~ In ("Success", "Trusted Site created successfully", Some "success")
           (toasts evs)
  end
  /\ length (toasts evs) <= 2.
Proof.
  intros env event c Hvalid. cbn zeta.
  rewrite requests_of_handleSubmit by assumption.
  rewrite events_of_handleSubmit by assumption.
  unfold submitted, caught.
  destruct (batch env c) as [|e] eqn:Hbatch.
  - rewrite (proj1 (batch_resolved_iff env c) Hbatch).
    destruct (apex_refresh env (__wiredResult c)) as [fresh|e].
    + cbn [snd events app].
      rewrite !refreshes_app, !toasts_app, refreshes_dispatch,
        toasts_dispatch.
      assert (Hl : toasts (refetched_log fresh) = []
                   /\ refreshes (refetched_log fresh) = 0).
      { destruct fresh as [result|]; [|now split].
        split; [apply toasts_wiredResources_log
               |apply refreshes_wiredResources_log]. }
      destruct Hl as [Hl1 Hl2]. rewrite Hl1, Hl2. cbn. repeat split; lia.
    + destruct (catch_message (body e)); cbn [snd events app];
        rewrite ?refreshes_app, ?toasts_app, refreshes_dispatch,
          toasts_dispatch; cbn; repeat split; lia.
  - destruct (Promise_all (map (settle env) (creation_requests c)))
      as [|e'] eqn:Hcalls.
    { apply batch_resolved_iff in Hcalls. congruence. }
    destruct (catch_message (body e)); cbn [snd events app];
      rewrite ?refreshes_app, ?toasts_app, refreshes_dispatch,
        toasts_dispatch; cbn; repeat split; try lia;
      intros [H|H]; try discriminate H; exact H.
Qed.

(** Scenario D once more: a rejected creation, no re-fetch. *)
Lemma refetch_exactly_when_all_created_witness :
  refreshes (events_of (handleSubmit env_duplicate submit_event) typed_all)
  = 0.
Proof.
  pose proof (refetch_exactly_when_all_created env_duplicate submit_event
                typed_all) as H.
  cbn zeta in H.
  destruct H as [H _].
  - split; reflexivity.
  - vm_compute in H. exact (proj1 H).
Defined.

Lemma requests_of_any_handleSubmit env event c :
  requests (events_of (handleSubmit env event) c)
  = if target_is_form event && checkValidity event
    then creation_requests c else [].
Proof.
  destruct (target_is_form event) eqn:Hf; [destruct (checkValidity event) eqn:Hv|].
  - apply requests_of_handleSubmit. now split.
  - unfold events_of, run, handleSubmit. now rewrite Hf, Hv.
  - unfold events_of, run, handleSubmit. now rewrite Hf.
Qed.

(** What a fully successful submission created is not carried over: the
    next submission, whatever its event and whatever the platform answers,
    dispatches no creation request until something is typed or ticked
    again. *)
Theorem nothing_resubmitted_after_success :
  forall env event c fresh env' event',
  valid event ->
  Forall (fun r => settle env r = Resolved)
    (requests (events_of (handleSubmit env event) c)) ->
  apex_refresh env (__wiredResult c) = Refetched fresh ->
  requests
    (events_of (handleSubmit env' event')
       (this_after (handleSubmit env event) c))
  = [].
Proof.
  intros env event c fresh env' event' Hvalid Hall Href.
  rewrite requests_of_any_handleSubmit.
  destruct (target_is_form event' && checkValidity event'); [|reflexivity].
  rewrite requests_of_handleSubmit in Hall by assumption.
  rewrite this_after_handleSubmit by assumption.
  unfold submitted. now rewrite (batch_resolved _ _ Hall), Href.
Qed.

(** Everything is typed, created, and submitted a second time. *)
Lemma nothing_resubmitted_witness :
  requests
    (events_of (handleSubmit env_no_body submit_event)
       (this_after (handleSubmit env_ok submit_event) typed_all))
  = [].
Proof.
  apply (nothing_resubmitted_after_success env_ok submit_event typed_all None).
  - split; reflexivity.
  - vm_compute. repeat constructor.
  - reflexivity.
Defined.

(** A submission in which a creation request is rejected can be tried
    again as it is: the next submission of a valid form dispatches the
    same creation requests, the ones that had succeeded included. *)
Theorem failed_submission_is_retried_whole :
  forall env event c env' event',
  valid event ->
  valid event' ->
  Exists (fun r => settle env r <> Resolved)
    (requests (events_of (handleSubmit env event) c)) ->
  requests
    (events_of (handleSubmit env' event')
       (this_after (handleSubmit env event) c))
  = requests (events_of (handleSubmit env event) c).
Proof.
  intros env event c env' event' Hvalid Hvalid' Hbad.
  rewrite !requests_of_handleSubmit by assumption.
  rewrite requests_of_handleSubmit in Hbad by assumption.
  destruct (handleSubmit_creation_rejected env event c Hvalid Hbad)
    as [H1 [H2 [H3 _]]].
  unfold creation_requests. now rewrite H1, H2, H3.
Qed.

(** Scenario D, submitted again: all three requests go out again. *)
Lemma failed_submission_retry_witness :
  requests
    (events_of (handleSubmit env_ok submit_event)
       (this_after (handleSubmit env_duplicate submit_event) typed_all))
  = [("https://ui.example.com", "ui_connector");
     ("wss://ui.example.com", "ui_connector_wss");
     ("https://flex.twilio.com", "twilio_flex")].
Proof.
  rewrite (failed_submission_is_retried_whole env_duplicate submit_event
             typed_all env_ok submit_event).
  - reflexivity.
  - split; reflexivity.
  - split; reflexivity.
  - vm_compute. apply Exists_cons_tl. apply Exists_cons_hd. discriminate.
Defined.

(** When the target of the event is not a form, [handleSubmit] writes to
    the console and does nothing else: no toast, no creation request, no
    re-fetch, and the instance is as it was, whatever the form would have
    answered to validation. *)
Theorem submission_from_non_form_is_ignored : forall env event c,
  target_is_form event = false ->
  toasts (events_of (handleSubmit env event) c) = []
  /\ requests (events_of (handleSubmit env event) c) = []
  /\ refreshes (events_of (handleSubmit env event) c) = 0
  /\ this_after (handleSubmit env event) c = c
  /\ completion_of (handleSubmit env event) c = Normal tt.
Proof.
  intros env event c H.
  unfold events_of, this_after, completion_of, run.
  rewrite handleSubmit_not_form by assumption. now cbn.
Qed.

Lemma submission_from_non_form_witness :
  this_after (handleSubmit env_ok (mkSubmitEvent false true)) typed_all
  = typed_all.
Proof.
  exact (proj1 (proj2 (proj2 (proj2
    (submission_from_non_form_is_ignored env_ok (mkSubmitEvent false true)
       typed_all eq_refl))))).
Defined.

(** When creation calls are rejected, what [handleSubmit] reports is
    decided by the rejection that settles first, which need not be that
    of the first call: the Error toast is built from the body of that
    rejection, and when it has no body no toast is shown and a
    [TypeError] leaves [handleSubmit].  Nothing is re-fetched. *)
Theorem submission_reports_first_rejection_to_settle :
  forall env event c e,
  valid event ->
  Promise_all
    (map outcome
       (in_settlement_order
          (map (in_flight env)
             (requests (events_of (handleSubmit env event) c)))))
  = Rejected e ->
  let evs := events_of (handleSubmit env event) c in
  match catch_message (body e) with
  | Some m =>
      toasts evs = [("Error", "Error creating site: " ++ m, Some "error")]
      /\ completion_of (handleSubmit env event) c = Normal tt
  | None =>
      toasts evs = []
      /\ completion_of (handleSubmit env event) c = Throw TypeError
  end
  /\ refreshes evs = 0.
Proof.
  intros env event c e Hvalid Hall. cbn zeta.
  rewrite requests_of_handleSubmit in Hall by assumption.
  rewrite events_of_handleSubmit, completion_of_handleSubmit by assumption.
  unfold submitted. fold (batch env c) in Hall. rewrite Hall.
  unfold caught.
  destruct (catch_message (body e)) as [m|]; cbn [fst snd events];
    rewrite ?toasts_app, ?refreshes_app, toasts_dispatch,
      refreshes_dispatch;
    now repeat split.
Qed.

(** Three creations are rejected; the one called first settles last. *)
Lemma submission_reports_first_rejection_witness :
  toasts (events_of (handleSubmit env_race submit_event) typed_all)
  = [("Error", "Error creating site: duplicate", Some "error")].
Proof.
  exact (proj1 (proj1
    (submission_reports_first_rejection_to_settle env_race submit_event
       typed_all
       (ErrorValue (BodyArray [mkBodyElem (Some "duplicate")]))
       (conj eq_refl eq_refl) eq_refl))).
Defined.

(** ** [ExternalClientAppForm]: the wire handler and [handleCreate] *)

Lemma eca_wiredResources_run params i evs :
  EcaMethods.wiredResources params (i, evs)
  = (Done tt,
     (EcaMethods.after_wiredResources params i,
      (evs ++ EcaMethods.wiredResources_log params)%list)).
Proof.
  destruct params as [d err], i as [[email id ex ld] wr].
  unfold EcaMethods.wiredResources, EcaMethods.after_wiredResources,
    EcaMethods.wiredResources_log.
  cbn [EcaMethods.data EcaMethods.error].
  destruct err; destruct d as [[|eca rest]|]; cbn;
    now rewrite ?app_nil_r.
Qed.

Lemma eca_state_after_wiredResources params i :
  state_after (EcaMethods.wiredResources params) i
  = EcaMethods.after_wiredResources params i.
Proof. unfold state_after, exec. now rewrite eca_wiredResources_run. Qed.

Lemma eca_process_cons params history i :
  EcaMethods.process (params :: history) i
  = EcaMethods.process history (EcaMethods.after_wiredResources params i).
Proof.
  unfold EcaMethods.process. cbn [fold_left].
  now rewrite eca_state_after_wiredResources.
Qed.

Lemma eca_fields_over_history : forall history,
  let i := EcaMethods.process history EcaMethods.initial in
  EcaMethods.doesExternalAppExist i
  = existsb EcaMethods.has_record history
  /\ EcaMethods.ecaId i
     = match EcaMethods.last_record history with
       | Some eca => EcaMethods.Id eca
       | None => ""
       end
  /\ EcaMethods.contactEmail i
     = match EcaMethods.last_record history with
       | Some eca => EcaMethods.ContactEmail eca
       | None => ""
       end.
Proof.
  assert (Hgen : forall history i found,
    EcaMethods.ecaId i
    = match found with Some eca => EcaMethods.Id eca | None => "" end ->
    EcaMethods.contactEmail i
    = match found with
      | Some eca => EcaMethods.ContactEmail eca
      | None => ""
      end ->
    let i' := EcaMethods.process history i in
    let found' :=
      fold_left
        (fun found0 params =>
           match EcaMethods.data params with
           | Some (eca :: _) => Some eca
           | _ => found0
           end)
        history found in
    EcaMethods.doesExternalAppExist i'
    = EcaMethods.doesExternalAppExist i
      || existsb EcaMethods.has_record history
    /\ EcaMethods.ecaId i'
       = match found' with Some eca => EcaMethods.Id eca | None => "" end
    /\ EcaMethods.contactEmail i'
       = match found' with
         | Some eca => EcaMethods.ContactEmail eca
         | None => ""
         end).
  { induction history as [|params rest IH]; intros i found Hid Hemail.
    - cbn. now rewrite orb_false_r.
    - cbn zeta. rewrite eca_process_cons. cbn [fold_left existsb].
      unfold EcaMethods.has_record at 1.
      unfold EcaMethods.after_wiredResources.
      destruct (EcaMethods.data params) as [[|eca others]|].
      + destruct (IH (EcaMethods.mkInstance (EcaMethods.fields i)
                        (Some params)) found Hid Hemail) as [H1 [H2 H3]].
        now repeat split.
      + destruct (IH (EcaMethods.mkInstance
                        (ExternalClientAppForm.mkComponent
                           (EcaMethods.ContactEmail eca) (EcaMethods.Id eca)
                           true (EcaMethods.isLoading i))
                        (Some params)) (Some eca) eq_refl eq_refl)
          as [H1 [H2 H3]].
        cbn in H1. rewrite H1, orb_true_r. now repeat split.
      + destruct (IH (EcaMethods.mkInstance (EcaMethods.fields i)
                        (Some params)) found Hid Hemail) as [H1 [H2 H3]].
        now repeat split. }
  intros history. exact (Hgen history EcaMethods.initial None eq_refl eq_refl).
Qed.

(** The External Client App is reported to exist as soon as one wire
    result has carried a record, and from then on whatever the later
    results carry: a result without records changes none of the fields.
    The email and the identifier are those of the first record of the last
    result that carried one. *)
Theorem eca_exists_once_seen : forall history,
  let i := EcaMethods.process history EcaMethods.initial in
  EcaMethods.doesExternalAppExist i
  = existsb EcaMethods.has_record history
  /\ EcaMethods.ecaId i
     = match EcaMethods.last_record history with
       | Some eca => EcaMethods.Id eca
       | None => ""
       end
  /\ EcaMethods.contactEmail i
     = match EcaMethods.last_record history with
       | Some eca => EcaMethods.ContactEmail eca
       | None => ""
       end.
Proof. exact eca_fields_over_history. Qed.

(** The settings link of the External Client App is that of the first
    record of the last wire result that carried one; as long as no record
    has been seen, the link has an empty identifier. *)
Theorem eca_settings_link_of_last_record : forall history,
  EcaMethods.handleNavigateToEcaSettings
    (EcaMethods.process history EcaMethods.initial)
  = [ExternalClientAppForm.WindowOpen
       ("/lightning/setup/ManageExternalClientApplication/"
          ++ match EcaMethods.last_record history with
             | Some eca => Js.slice (EcaMethods.Id eca) 0 (-3)
             | None => ""
             end
          ++ "/detail/")
       "_blank"].
Proof.
  intros history.
  destruct (eca_fields_over_history history) as [_ [Hid _]].
  unfold EcaMethods.handleNavigateToEcaSettings,
    ExternalClientAppForm.handleNavigateToEcaSettings.
  unfold EcaMethods.ecaId in Hid. rewrite Hid.
  now destruct (EcaMethods.last_record history).
Qed.


(** [handleCreate] with an empty contact email asks the admin to fill in
    the field and does nothing else: nothing is created, nothing is
    re-fetched and the instance is as it was. *)
Theorem eca_create_requires_email : forall env i,
  EcaMethods.contactEmail i = "" ->
  effects_of (EcaMethods.handleCreate env) i
  = [EcaMethods.ShowToastEvent "Error" "Please fill in all fields"
       (Some "error")]
  /\ state_after (EcaMethods.handleCreate env) i = i
  /\ outcome_of (EcaMethods.handleCreate env) i = Done tt.
Proof.
  intros env i H.
  unfold effects_of, state_after, outcome_of, exec, EcaMethods.handleCreate,
    andThen, read.
  cbn [fst snd]. rewrite H. now cbn.
Qed.

Lemma eca_create_requires_email_witness :
  effects_of
    (EcaMethods.handleCreate
       (EcaMethods.mkEnv (fun _ => Resolved)
          (fun _ => EcaMethods.Refetched None)))
    EcaMethods.initial
  = [EcaMethods.ShowToastEvent "Error" "Please fill in all fields"
       (Some "error")].
Proof.
  exact (proj1 (eca_create_requires_email
                  (EcaMethods.mkEnv (fun _ => Resolved)
                     (fun _ => EcaMethods.Refetched None))
                  EcaMethods.initial eq_refl)).
Defined.

Lemma eca_handleCreate_resolved env i evs fresh :
  EcaMethods.contactEmail i <> "" ->
  EcaMethods.apex_create env (EcaMethods.contactEmail i) = Resolved ->
  EcaMethods.apex_refresh env (EcaMethods.__wiredResult i)
  = EcaMethods.Refetched fresh ->
  EcaMethods.handleCreate env (i, evs)
  = (Done tt,
     (EcaMethods.with_isLoading false
        (EcaMethods.with_contactEmail ""
           (EcaMethods.refetched fresh (EcaMethods.with_isLoading true i))),
      (evs
         ++ [EcaMethods.CreateExternalClientApp (EcaMethods.contactEmail i);
             EcaMethods.ShowToastEvent "Success"
               "External Client App created successfully" (Some "success");
             EcaMethods.RefreshApex (EcaMethods.__wiredResult i)]
         ++ match fresh with
            | Some params => EcaMethods.wiredResources_log params
            | None => []
            end)%list)).
Proof.
  intros Hemail Hcreate Href. apply truthy_nonempty in Hemail.
  unfold EcaMethods.handleCreate.
  unfold andThen at 1. cbn [read fst snd]. rewrite Hemail. cbn [negb].
  cbv beta iota zeta delta
    [attempt andThen update read perform pure wait raise fst snd
     EcaMethods.createExternalClientApp EcaMethods.refreshApex
     EcaMethods.showToast].
  change (EcaMethods.contactEmail (EcaMethods.with_isLoading true i))
    with (EcaMethods.contactEmail i).
  rewrite Hcreate.
  change (EcaMethods.__wiredResult (EcaMethods.with_isLoading true i))
    with (EcaMethods.__wiredResult i).
  rewrite Href.
  destruct fresh as [params|].
  - rewrite eca_wiredResources_run. cbn [EcaMethods.refetched].
    now rewrite <- !app_assoc.
  - cbn [EcaMethods.refetched]. now rewrite <- !app_assoc, app_nil_r.
Qed.


(** A successful [handleCreate]: one creation is asked for, with the
    email typed; the Success toast is shown and the wire is re-fetched
    once; the loading flag is down and the email field is empty at the
    end, even when the re-fetch has just filled it with the email of the
    record; the existence flag and the identifier are those the re-fetch
    left. *)
Theorem eca_create_success : forall env i fresh,
  EcaMethods.contactEmail i <> "" ->
  EcaMethods.apex_create env (EcaMethods.contactEmail i) = Resolved ->
  EcaMethods.apex_refresh env (EcaMethods.__wiredResult i)
  = EcaMethods.Refetched fresh ->
  let i' := state_after (EcaMethods.handleCreate env) i in
  let evs := effects_of (EcaMethods.handleCreate env) i in
  EcaMethods.creations evs = [EcaMethods.contactEmail i]
  /\ EcaMethods.toasts evs
     = [("Success", "External Client App created successfully",
         Some "success")]
  /\ EcaMethods.refreshes evs = 1
  /\ EcaMethods.contactEmail i' = ""
  /\ EcaMethods.isLoading i' = false
  /\ (let seen :=
        match fresh with
        | Some params => state_after (EcaMethods.wiredResources params) i
        | None => i
        end in
      EcaMethods.doesExternalAppExist i' = EcaMethods.doesExternalAppExist seen
      /\ EcaMethods.ecaId i' = EcaMethods.ecaId seen)
  /\ outcome_of (EcaMethods.handleCreate env) i = Done tt.
Proof.
  intros env i fresh Hemail Hcreate Href. cbn zeta.
  pose proof (eca_handleCreate_resolved env i [] fresh Hemail Hcreate Href)
    as Hrun.
  assert (Hstate : state_after (EcaMethods.handleCreate env) i
                   = EcaMethods.with_isLoading false
                       (EcaMethods.with_contactEmail ""
                          (EcaMethods.refetched fresh
                             (EcaMethods.with_isLoading true i))))
    by (unfold state_after, exec; now rewrite Hrun).
  rewrite Hstate. unfold effects_of, outcome_of, exec. rewrite Hrun.
  cbn [fst snd app].
  destruct fresh as [params|]; [|now cbn].
  rewrite eca_state_after_wiredResources.
  destruct params as [d err], i as [[email id ex ld] wr].
  unfold EcaMethods.refetched, EcaMethods.after_wiredResources,
    EcaMethods.wiredResources_log.
  cbn [EcaMethods.data EcaMethods.error].
  destruct err; destruct d as [[|eca rest]|]; now cbn.
Qed.

Lemma eca_create_success_witness :
  let i :=
    state_after (EcaMethods.handleEmailChange (Some "admin@example.com"))
      EcaMethods.initial in
  let env :=
    EcaMethods.mkEnv (fun _ => Resolved)
      (fun _ =>
         EcaMethods.Refetched
           (Some (EcaMethods.mkWireResult
                    (Some [EcaMethods.mkEca "0xHXX0000000001AAA"
                             "admin@example.com"])
                    None))) in
  EcaMethods.contactEmail (state_after (EcaMethods.handleCreate env) i) = ""
  /\ EcaMethods.doesExternalAppExist
       (state_after (EcaMethods.handleCreate env) i) = true.
Proof.
  cbn zeta.
  pose proof (eca_create_success
    (EcaMethods.mkEnv (fun _ => Resolved)
       (fun _ =>
          EcaMethods.Refetched
            (Some (EcaMethods.mkWireResult
                     (Some [EcaMethods.mkEca "0xHXX0000000001AAA"
                              "admin@example.com"])
                     None))))
    (state_after (EcaMethods.handleEmailChange (Some "admin@example.com"))
       EcaMethods.initial)
    _ ltac:(discriminate) eq_refl eq_refl) as H.
  cbn zeta in H. destruct H as [_ [_ [_ [He [_ [[Hx _] _]]]]]].
  split; [exact He|]. rewrite Hx. reflexivity.
Defined.



(** ** [SetupAssistant]: the wire handler and [handleDeploy] *)

Lemma setup_wiredResources_run params i evs :
  SetupAssistant.wiredResources params (i, evs)
  = (Done tt,
     (SetupAssistant.after_wiredResources params i,
      (evs ++ SetupAssistant.wiredResources_log params)%list)).
Proof.
  destruct params as [err d], i as [ld su er wr td sd cu].
  unfold SetupAssistant.wiredResources, SetupAssistant.after_wiredResources,
    SetupAssistant.wiredResources_log.
  cbn [SetupAssistant.data SetupAssistant.error].
  destruct err as [e|]; destruct d as [it|];
    cbv beta iota zeta delta
      [andThen update perform pure fst snd map String.concat
       SetupAssistant.with___wiredResult SetupAssistant.with_tableData
       SetupAssistant.with_shouldDisplayInstallBtn
       SetupAssistant.with_channelUrl SetupAssistant.with_error
       SetupAssistant.with_isSuccess
       SetupAssistant.isLoading SetupAssistant.isSuccess
       SetupAssistant.error_ SetupAssistant.__wiredResult
       SetupAssistant.tableData SetupAssistant.shouldDisplayInstallBtn
       SetupAssistant.channelUrl];
    now rewrite ?app_nil_r.
Qed.

(** Whatever the instance held, after a wire result the Install button
    shows exactly when the result carries no channel.  With a channel the
    table holds one row, marked Deployed exactly when the channel has a
    URL, and success is recorded when no error came along.  An error that
    comes without a channel clears the table but is not recorded: the
    error and success fields stay as they were. *)
Theorem setup_wire_result_decides_install_button : forall params i,
  let i' := state_after (SetupAssistant.wiredResources params) i in
  SetupAssistant.shouldDisplayInstallBtn i'
  = match SetupAssistant.data params with Some _ => false | None => true end
  /\ match SetupAssistant.data params with
     | Some it =>
         SetupAssistant.channelUrl i' = SetupAssistant.url it
         /\ (exists st,
               SetupAssistant.tableData i'
               = Some [SetupAssistant.mkTableRow it st]
               /\ (st = "Deployed" <-> SetupAssistant.url it <> "")
               /\ (st = "Not Deployed" <-> SetupAssistant.url it = ""))
         /\ match SetupAssistant.error params with
            | None =>
                SetupAssistant.isSuccess i' = true
                /\ SetupAssistant.error_ i' = SetupAssistant.Undefined
            | Some e =>
                SetupAssistant.isSuccess i' = SetupAssistant.isSuccess i
                /\ SetupAssistant.error_ i'
                   = SetupAssistant.Text (SetupAssistant.rendered e)
            end
     | None =>
         SetupAssistant.error_ i' = SetupAssistant.error_ i
         /\ SetupAssistant.isSuccess i' = SetupAssistant.isSuccess i
         /\ SetupAssistant.channelUrl i' = SetupAssistant.channelUrl i
         /\ SetupAssistant.tableData i'
            = match SetupAssistant.error params with
              | Some _ => None
              | None => SetupAssistant.tableData i
              end
     end.
Proof.
  intros params i. cbn zeta.
  unfold state_after, exec. rewrite setup_wiredResources_run.
  cbn [fst snd]. unfold SetupAssistant.after_wiredResources.
  destruct (SetupAssistant.data params) as [it|],
    (SetupAssistant.error params) as [e|];
    cbn [SetupAssistant.shouldDisplayInstallBtn SetupAssistant.channelUrl
         SetupAssistant.tableData SetupAssistant.isSuccess
         SetupAssistant.error_];
    try (now repeat split).
  - split; [reflexivity|]. split; [reflexivity|]. split; [|now split].
    eexists. split; [reflexivity|].
    destruct (SetupAssistant.url it); cbn [Js.truthy]; split; split;
      intros H; try reflexivity; try discriminate H; try discriminate;
      now elim H.
  - split; [reflexivity|]. split; [reflexivity|]. split; [|now split].
    eexists. split; [reflexivity|].
    destruct (SetupAssistant.url it); cbn [Js.truthy]; split; split;
      intros H; try reflexivity; try discriminate H; try discriminate;
      now elim H.
Qed.

Lemma setup_handleDeploy_run env i evs :
  SetupAssistant.handleDeploy env (i, evs)
  = let i1 :=
      SetupAssistant.with_isSuccess false
        (SetupAssistant.with_error SetupAssistant.Null
           (SetupAssistant.with_isLoading true i)) in
    let fail e i0 :=
      SetupAssistant.with_isLoading false
        (SetupAssistant.with_error (SetupAssistant.error_after_catch e) i0) in
    match SetupAssistant.apex_install env with
    | SetupAssistant.Failed e =>
        (SetupAssistant.completion_of_catch e,
         (fail e i1, (evs ++ [SetupAssistant.InstallMessageChannel])%list))
    | SetupAssistant.Fulfilled =>
        let i2 := SetupAssistant.with_isSuccess true i1 in
        let evs2 :=
          (evs ++ [SetupAssistant.InstallMessageChannel;
                   SetupAssistant.RefreshApex
                     (SetupAssistant.__wiredResult i)])%list in
        match SetupAssistant.apex_refresh env
                (SetupAssistant.__wiredResult i) with
        | SetupAssistant.RefetchFailed e =>
            (SetupAssistant.completion_of_catch e, (fail e i2, evs2))
        | SetupAssistant.Refetched fresh =>
            (Done tt,
             (SetupAssistant.with_isLoading false
                (SetupAssistant.refetched fresh i2),
              (evs2
                 ++ match fresh with
                    | Some params => SetupAssistant.wiredResources_log params
                    | None => []
                    end)%list))
        end
    end.
Proof.
  cbv zeta. unfold SetupAssistant.handleDeploy.
  cbv beta iota zeta delta
    [attempt andThen update read perform pure raise fst snd
     SetupAssistant.installMessageChannel SetupAssistant.refreshApex
     SetupAssistant.await].
  destruct (SetupAssistant.apex_install env) as [|e].
  - change (SetupAssistant.__wiredResult
              (SetupAssistant.with_isSuccess true
                 (SetupAssistant.with_isSuccess false
                    (SetupAssistant.with_error SetupAssistant.Null
                       (SetupAssistant.with_isLoading true i)))))
      with (SetupAssistant.__wiredResult i).
    destruct (SetupAssistant.apex_refresh env (SetupAssistant.__wiredResult i))
      as [[fresh|]|e].
    + rewrite setup_wiredResources_run. cbn [SetupAssistant.refetched].
      now rewrite <- !app_assoc.
    + cbn [SetupAssistant.refetched]. now rewrite <- !app_assoc, app_nil_r.
    + rewrite <- !app_assoc. now destruct e as [|[|m] m'].
  - now destruct e as [|[|m] m'].
Qed.

(** [handleDeploy] asks for exactly one installation and always ends with
    the loading flag down.  It completes normally unless the value it
    catches is [undefined] or [null]: reading the [body] of that value
    raises a [TypeError], which leaves [handleDeploy] once the loading
    flag is down. *)
Theorem setup_deploy_raises_on_nullish_only : forall env i,
  outcome_of (SetupAssistant.handleDeploy env) i
  = match SetupAssistant.caught env i with
    | Some SetupAssistant.Nullish => Raised SetupAssistant.TypeError
    | _ => Done tt
    end
  /\ SetupAssistant.isLoading
       (state_after (SetupAssistant.handleDeploy env) i) = false
  /\ SetupAssistant.installs (effects_of (SetupAssistant.handleDeploy env) i)
     = 1.
Proof.
  intros env i. unfold outcome_of, state_after, effects_of, exec.
  rewrite setup_handleDeploy_run. cbv zeta. unfold SetupAssistant.caught.
  destruct (SetupAssistant.apex_install env) as [|e];
    [|now destruct e as [|b m]].
  destruct (SetupAssistant.apex_refresh env (SetupAssistant.__wiredResult i))
    as [fresh|e]; [|now destruct e as [|b m]].
  cbn [fst snd app SetupAssistant.installs].
  split; [reflexivity|]. split; [reflexivity|].
  destruct fresh as [params|]; [|reflexivity].
  unfold SetupAssistant.wiredResources_log.
  now destruct (SetupAssistant.error params).
Qed.





(** When the installation and the re-fetch succeed, success is recorded;
    the error field holds [null] unless the wire provisioned a result
    with a channel, which sets it as the wire handler does; and the
    Install button is hidden exactly when the fresh result carries a
    channel, or when nothing fresh came and it was hidden before. *)
Theorem setup_deploy_success : forall env i fresh,
  SetupAssistant.apex_install env = SetupAssistant.Fulfilled ->
  SetupAssistant.apex_refresh env (SetupAssistant.__wiredResult i)
  = SetupAssistant.Refetched fresh ->
  let i' := state_after (SetupAssistant.handleDeploy env) i in
  SetupAssistant.isSuccess i' = true
  /\ SetupAssistant.error_ i'
     = match fresh with
       | Some params =>
           match SetupAssistant.data params, SetupAssistant.error params with
           | Some _, Some e => SetupAssistant.Text (SetupAssistant.rendered e)
           | Some _, None => SetupAssistant.Undefined
           | None, _ => SetupAssistant.Null
           end
       | None => SetupAssistant.Null
       end
  /\ SetupAssistant.shouldDisplayInstallBtn i'
     = match fresh with
       | Some params =>
           match SetupAssistant.data params with
           | Some _ => false
           | None => true
           end
       | None => SetupAssistant.shouldDisplayInstallBtn i
       end.
Proof.
  intros env i fresh Hinstall Href. cbn zeta.
  unfold state_after, exec.
  rewrite setup_handleDeploy_run. cbv zeta. rewrite Hinstall, Href.
  cbn [fst snd]. destruct fresh as [params|]; [|now cbn].
  unfold SetupAssistant.refetched, SetupAssistant.after_wiredResources.
  now destruct (SetupAssistant.data params), (SetupAssistant.error params).
Qed.

Lemma setup_deploy_success_witness :
  SetupAssistant.shouldDisplayInstallBtn
    (state_after
       (SetupAssistant.handleDeploy
          (SetupAssistant.mkEnv SetupAssistant.Fulfilled
             (fun _ =>
                SetupAssistant.Refetched
                  (Some (SetupAssistant.mkParams None
                           (Some (SetupAssistant.mkItem "AgentAssist"
                                    "0MjXX0000000001" "Omni" "00GXX0000000001"
                                    "https://acme.example.com/channel")))))))
       SetupAssistant.initial)
  = false.
Proof.
  exact (proj2 (proj2
    (setup_deploy_success
       (SetupAssistant.mkEnv SetupAssistant.Fulfilled
          (fun _ =>
             SetupAssistant.Refetched
               (Some (SetupAssistant.mkParams None
                        (Some (SetupAssistant.mkItem "AgentAssist"
                                 "0MjXX0000000001" "Omni" "00GXX0000000001"
                                 "https://acme.example.com/channel"))))))
       SetupAssistant.initial _ eq_refl eq_refl))).
Defined.

(** ** The read-only variant: pre-filling and [handleCreate] *)

Lemma ro_forEach_csp_run csp i evs :
  ReadonlyForm.forEach_csp csp (i, evs)
  = (Done tt, (ReadonlyForm.after_each [csp] i, evs)).
Proof.
  destruct i as [ld ui wss pr ro names cs], csp as [cid n u a].
  unfold ReadonlyForm.forEach_csp, ReadonlyForm.after_each, present,
    inactive_records, Js.includes.
  cbn [ReadonlyForm.last_named map filter existsb DeveloperName IsActive
       EndpointUrl].
  destruct (n =? UI_CONNECTOR) eqn:E1;
    [apply String.eqb_eq in E1; subst n; destruct a; cbn;
     now rewrite ?app_nil_r, ?orb_true_r, ?orb_false_r|].
  destruct (n =? UI_CONNECTOR_WSS) eqn:E2;
    [apply String.eqb_eq in E2; subst n; destruct a; cbn;
     now rewrite ?app_nil_r, ?orb_true_r, ?orb_false_r|].
  destruct (n =? TWILIO_FLEX) eqn:E3;
    [apply String.eqb_eq in E3; subst n; destruct a; cbn;
     now rewrite ?app_nil_r, ?orb_true_r, ?orb_false_r|].
  destruct a; cbn; now rewrite ?app_nil_r, ?orb_false_r.
Qed.

Lemma ro_after_each_cons csp rest i :
  ReadonlyForm.after_each rest (ReadonlyForm.after_each [csp] i)
  = ReadonlyForm.after_each (csp :: rest) i.
Proof.
  destruct i as [ld ui wss pr ro names cs].
  unfold ReadonlyForm.after_each, present, inactive_records.
  cbn [ReadonlyForm.last_named map filter existsb
       ReadonlyForm.isLoading ReadonlyForm.uiConnector
       ReadonlyForm.uiConnectorWss ReadonlyForm.provider
       ReadonlyForm.showReadonlyState ReadonlyForm.inactiveTrustedUrlNames
       ReadonlyForm.csps].
  f_equal.
  - destruct (ReadonlyForm.last_named UI_CONNECTOR rest); [reflexivity|].
    now destruct (DeveloperName csp =? UI_CONNECTOR).
  - destruct (ReadonlyForm.last_named UI_CONNECTOR_WSS rest); [reflexivity|].
    now destruct (DeveloperName csp =? UI_CONNECTOR_WSS).
  - destruct (existsb (fun c => DeveloperName c =? TWILIO_FLEX) rest);
      [now rewrite orb_true_r|].
    now destruct (DeveloperName csp =? TWILIO_FLEX).
  - rewrite !orb_false_r.
    destruct ro, (DeveloperName csp =? UI_CONNECTOR),
      (DeveloperName csp =? UI_CONNECTOR_WSS),
      (existsb (fun c => DeveloperName c =? UI_CONNECTOR) rest),
      (existsb (fun c => DeveloperName c =? UI_CONNECTOR_WSS) rest);
      reflexivity.
  - rewrite <- app_assoc. f_equal.
    now destruct (negb (IsActive csp)).
Qed.

Lemma ro_after_each_nil i : ReadonlyForm.after_each [] i = i.
Proof.
  destruct i. unfold ReadonlyForm.after_each. cbn.
  now rewrite app_nil_r, !orb_false_r.
Qed.

Lemma ro_each_run snapshot : forall i evs,
  each snapshot ReadonlyForm.forEach_csp (i, evs)
  = (Done tt, (ReadonlyForm.after_each snapshot i, evs)).
Proof.
  induction snapshot as [|csp rest IH]; intros i evs.
  - cbn. now rewrite ro_after_each_nil.
  - cbn [each]. unfold andThen. rewrite ro_forEach_csp_run, IH.
    now rewrite ro_after_each_cons.
Qed.

Lemma ro_state_after_wiredResources result i :
  state_after (ReadonlyForm.wiredResources result) i
  = match snapshot_of result with
    | [] => i
    | snapshot =>
        ReadonlyForm.after_each snapshot (ReadonlyForm.with_csps snapshot i)
    end.
Proof.
  unfold state_after, exec, ReadonlyForm.wiredResources, snapshot_of.
  destruct result as [d err]. cbn [data error].
  destruct err; destruct d as [[|csp rest]|];
    cbv beta iota zeta delta [andThen whenever perform pure update read
                              fst snd];
    try reflexivity;
    now rewrite ro_each_run.
Qed.

Lemma ro_fields_after_wire : forall result i,
  let i' := state_after (ReadonlyForm.wiredResources result) i in
  let snapshot := snapshot_of result in
  ReadonlyForm.uiConnector i'
  = match ReadonlyForm.last_named UI_CONNECTOR snapshot with
    | Some csp => EndpointUrl csp
    | None => ReadonlyForm.uiConnector i
    end
  /\ ReadonlyForm.uiConnectorWss i'
     = match ReadonlyForm.last_named UI_CONNECTOR_WSS snapshot with
       | Some csp => EndpointUrl csp
       | None => ReadonlyForm.uiConnectorWss i
       end
  /\ ReadonlyForm.provider i'
     = (if present TWILIO_FLEX snapshot
        then [TWILIO_FLEX] else ReadonlyForm.provider i)
  /\ ReadonlyForm.displayCreateBtn i'
     = ReadonlyForm.displayCreateBtn i
       && negb (present UI_CONNECTOR snapshot)
       && negb (present UI_CONNECTOR_WSS snapshot)
  /\ match snapshot with
     | [] => i' = i
     | _ => ReadonlyForm.csps i' = snapshot
     end.
Proof.
  intros result i. cbn zeta. rewrite ro_state_after_wiredResources.
  destruct (snapshot_of result) as [|csp rest].
  - cbn. rewrite !andb_true_r. now repeat split.
  - unfold ReadonlyForm.displayCreateBtn, ReadonlyForm.after_each.
    cbn [ReadonlyForm.uiConnector ReadonlyForm.uiConnectorWss
         ReadonlyForm.provider ReadonlyForm.showReadonlyState
         ReadonlyForm.with_csps ReadonlyForm.csps].
    rewrite !negb_orb. now repeat split.
Qed.

(** The wire handler fills the form with what exists: after a result
    with records, each of the two URL fields holds the endpoint of the
    last record that bears its name, or what it held when there is none;
    the provider is Twilio Flex as soon as a record bears that name; and
    the Create button is displayed only if it was and neither
    ui_connector nor ui_connector_wss is among the records (twilio_flex
    alone does not hide it).  A result without records changes nothing. *)
Theorem ro_wire_prefills_form : forall result i,
  let i' := state_after (ReadonlyForm.wiredResources result) i in
  let snapshot := snapshot_of result in
  ReadonlyForm.uiConnector i'
  = match ReadonlyForm.last_named UI_CONNECTOR snapshot with
    | Some csp => EndpointUrl csp
    | None => ReadonlyForm.uiConnector i
    end
  /\ ReadonlyForm.uiConnectorWss i'
     = match ReadonlyForm.last_named UI_CONNECTOR_WSS snapshot with
       | Some csp => EndpointUrl csp
       | None => ReadonlyForm.uiConnectorWss i
       end
  /\ ReadonlyForm.provider i'
     = (if present TWILIO_FLEX snapshot
        then [TWILIO_FLEX] else ReadonlyForm.provider i)
  /\ ReadonlyForm.displayCreateBtn i'
     = ReadonlyForm.displayCreateBtn i
       && negb (present UI_CONNECTOR snapshot)
       && negb (present UI_CONNECTOR_WSS snapshot)
  /\ match snapshot with
     | [] => i' = i
     | _ => ReadonlyForm.csps i' = snapshot
     end.
Proof. exact ro_fields_after_wire. Qed.

Lemma ro_handleCatch_run e i evs :
  ReadonlyForm.handleCreate_catch e (i, evs)
  = match catch_message (body e) with
    | Some m =>
        (Done tt,
         (i, (evs ++ [ReadonlyForm.ShowToastEvent "Error"
                        ("Error creating site: " ++ m) (Some "error");
                      ReadonlyForm.ConsoleError "Error creating site:"])%list))
    | None => (Raised TypeError, (i, evs))
    end.
Proof.
  unfold ReadonlyForm.handleCreate_catch.
  destruct (body e) as [|elems|[s|]];
    unfold andThen, ReadonlyForm.showToast, ReadonlyForm.body_message,
      perform, pure, raise, catch_message;
    cbn [fst snd]; rewrite <- ?app_assoc; reflexivity.
Qed.

Lemma ro_handleCreate_run create i evs :
  ReadonlyForm.uiConnector i <> "" ->
  ReadonlyForm.uiConnectorWss i <> "" ->
  ReadonlyForm.handleCreate create (i, evs)
  = let reqs := ReadonlyForm.creation_requests i in
    let evs1 :=
      (evs ++ map (fun r => ReadonlyForm.CreateTrustedSite (fst r) (snd r))
                reqs)%list in
    match Promise_all
            (map outcome
               (in_settlement_order
                  (map (fun r => create (fst r) (snd r)) reqs))) with
    | Resolved =>
        (Done tt,
         (ReadonlyForm.with_isLoading false
            (ReadonlyForm.with_isLoading true i),
          (evs1 ++ [ReadonlyForm.ShowToastEvent "Success"
                      "Trusted Site created successfully"
                      (Some "success")])%list))
    | Rejected e =>
        match catch_message (body e) with
        | Some m =>
            (Done tt,
             (ReadonlyForm.with_isLoading false
                (ReadonlyForm.with_isLoading true i),
              (evs1 ++ [ReadonlyForm.ShowToastEvent "Error"
                          ("Error creating site: " ++ m)%string
                          (Some "error");
                        ReadonlyForm.ConsoleError "Error creating site:"])%list))
        | None =>
            (Raised TypeError,
             (ReadonlyForm.with_isLoading false
                (ReadonlyForm.with_isLoading true i), evs1))
        end
    end.
Proof.
  intros Hu Hw. apply truthy_nonempty in Hu, Hw. cbv zeta.
  unfold ReadonlyForm.handleCreate, ReadonlyForm.creation_requests.
  unfold andThen at 1. cbn [read fst snd].
  unfold andThen at 1. cbn [read fst snd].
  rewrite Hu, Hw. cbn [negb orb].
  cbv beta iota zeta delta
    [andThen update read perform pure fst snd
     ReadonlyForm.createTrustedSite ReadonlyForm.showToast].
  change (ReadonlyForm.provider (ReadonlyForm.with_isLoading true i))
    with (ReadonlyForm.provider i).
  destruct (ReadonlyForm.provider i) as [|first others];
    [|destruct (first =? TWILIO_FLEX)];
    cbn [app map fst snd];
    unfold attempt, andThen;
    match goal with
    | |- context [wait (Promise_all ?l)] =>
        destruct (Promise_all l) as [|e]
    end;
    cbn [wait pure raise update perform fst snd];
    rewrite ?ro_handleCatch_run;
    try destruct (catch_message (body e));
    cbn [update fst snd]; now rewrite <- ?app_assoc.
Qed.

(** In the read-only variant [handleCreate] wants both URL fields: when
    either is empty it asks the admin to fill in all fields and does
    nothing else, even if Twilio Flex is chosen. *)
Theorem ro_create_requires_both_urls : forall create i,
  ReadonlyForm.uiConnector i = "" \/ ReadonlyForm.uiConnectorWss i = "" ->
  effects_of (ReadonlyForm.handleCreate create) i
  = [ReadonlyForm.ShowToastEvent "Error" "Please fill in all fields"
       (Some "error")]
  /\ state_after (ReadonlyForm.handleCreate create) i = i
  /\ outcome_of (ReadonlyForm.handleCreate create) i = Done tt.
Proof.
  intros create i H.
  assert (Hrun : ReadonlyForm.handleCreate create (i, [])
                 = (Done tt,
                    (i, [ReadonlyForm.ShowToastEvent "Error"
                           "Please fill in all fields" (Some "error")]))).
  { unfold ReadonlyForm.handleCreate.
    unfold andThen at 1. cbn [read fst snd].
    unfold andThen at 1. cbn [read fst snd].
    destruct H as [H|H]; rewrite H; cbn [Js.truthy negb orb];
      [|rewrite orb_true_r]; reflexivity. }
  unfold effects_of, state_after, outcome_of, exec. rewrite Hrun.
  now repeat split.
Qed.

Lemma ro_create_requires_both_urls_witness :
  ReadonlyForm.requests
    (effects_of (ReadonlyForm.handleCreate (fun _ _ => Resolved))
       (state_after
          (ReadonlyForm.handleUrlChange UI_CONNECTOR "https://ui.example.com")
          ReadonlyForm.initial))
  = [].
Proof.
  rewrite (proj1 (ro_create_requires_both_urls (fun _ _ => Resolved)
                    (state_after
                       (ReadonlyForm.handleUrlChange UI_CONNECTOR
                          "https://ui.example.com")
                       ReadonlyForm.initial)
                    (or_intror eq_refl))).
  reflexivity.
Defined.

Lemma ro_requests_and_toasts : forall create i,
  ReadonlyForm.uiConnector i <> "" ->
  ReadonlyForm.uiConnectorWss i <> "" ->
  let i' := state_after (ReadonlyForm.handleCreate create) i in
  let evs := effects_of (ReadonlyForm.handleCreate create) i in
  ReadonlyForm.requests evs
  = ((ReadonlyForm.uiConnector i, UI_CONNECTOR)
     :: (ReadonlyForm.uiConnectorWss i, UI_CONNECTOR_WSS)
     :: (if match ReadonlyForm.provider i with
            | first :: _ => first =? TWILIO_FLEX
            | [] => false
            end
         then [("https://flex.twilio.com", TWILIO_FLEX)] else []))
  /\ ReadonlyForm.toasts evs
     = match Promise_all
               (map outcome
                  (in_settlement_order
                     (map (fun r => create (fst r) (snd r))
                        (ReadonlyForm.requests evs)))) with
       | Resolved =>
           [("Success", "Trusted Site created successfully", Some "success")]
       | Rejected e =>
           match catch_message (body e) with
           | Some m => [("Error", "Error creating site: " ++ m, Some "error")]
           | None => []
           end
       end
  /\ ReadonlyForm.uiConnector i' = ReadonlyForm.uiConnector i
  /\ ReadonlyForm.uiConnectorWss i' = ReadonlyForm.uiConnectorWss i
  /\ ReadonlyForm.provider i' = ReadonlyForm.provider i
  /\ ReadonlyForm.isLoading i' = false.
Proof.
  intros create i Hu Hw. cbn zeta.
  unfold effects_of, state_after, exec.
  rewrite ro_handleCreate_run by assumption. cbv zeta.
  assert (Hreq : forall l tail,
    ReadonlyForm.requests
      (map (fun r => ReadonlyForm.CreateTrustedSite (fst r) (snd r)) l
         ++ tail)
    = (l ++ ReadonlyForm.requests tail)%list).
  { induction l as [|[u n] l IH]; intros tail; [reflexivity|].
    cbn. now rewrite IH. }
  assert (Htoast : forall l tail,
    ReadonlyForm.toasts
      (map (fun r => ReadonlyForm.CreateTrustedSite (fst r) (snd r)) l
         ++ tail)
    = ReadonlyForm.toasts tail).
  { induction l as [|[u n] l IH]; intros tail; [reflexivity|].
    cbn. now rewrite IH. }
  assert (Hshape : ReadonlyForm.creation_requests i
    = (ReadonlyForm.uiConnector i, UI_CONNECTOR)
      :: (ReadonlyForm.uiConnectorWss i, UI_CONNECTOR_WSS)
      :: (if match ReadonlyForm.provider i with
             | first :: _ => first =? TWILIO_FLEX
             | [] => false
             end
          then [("https://flex.twilio.com", TWILIO_FLEX)] else [])).
  { unfold ReadonlyForm.creation_requests.
    destruct (ReadonlyForm.provider i) as [|first others]; [reflexivity|].
    now destruct (first =? TWILIO_FLEX). }
  rewrite <- Hshape.
  assert (Hevs : forall tail,
    ReadonlyForm.requests tail = [] ->
    ReadonlyForm.requests
      (map (fun r => ReadonlyForm.CreateTrustedSite (fst r) (snd r))
         (ReadonlyForm.creation_requests i) ++ tail)
    = ReadonlyForm.creation_requests i).
  { intros tail Ht. now rewrite Hreq, Ht, app_nil_r. }
  destruct (Promise_all
              (map outcome
                 (in_settlement_order
                    (map (fun r => create (fst r) (snd r))
                       (ReadonlyForm.creation_requests i)))))
    as [|e] eqn:Hall.
  - cbn [fst snd app]. rewrite Hevs by reflexivity. rewrite Hall, Htoast.
    now repeat split.
  - destruct (catch_message (body e)) as [m|] eqn:Hm; cbn [fst snd app].
    + rewrite Hevs by reflexivity. rewrite Hall, Hm, Htoast.
      now repeat split.
    + rewrite <- (app_nil_r (map _ _)), Hevs by reflexivity.
      rewrite Hall, Hm, Htoast. now repeat split.
Qed.



(** What the wire handler of the read-only variant pre-filled is sent
    again: once a result holds ui_connector and ui_connector_wss records
    with endpoints, the Create button is no longer displayed, yet
    [handleCreate] dispatches creation requests for exactly these two
    existing endpoints. *)
Theorem ro_prefilled_sites_are_created_again :
  forall create result i a b,
  ReadonlyForm.last_named UI_CONNECTOR (snapshot_of result) = Some a ->
  ReadonlyForm.last_named UI_CONNECTOR_WSS (snapshot_of result) = Some b ->
  EndpointUrl a <> "" ->
  EndpointUrl b <> "" ->
  let i' := state_after (ReadonlyForm.wiredResources result) i in
  ReadonlyForm.displayCreateBtn i' = false
  /\ exists flex,
       ReadonlyForm.requests
         (effects_of (ReadonlyForm.handleCreate create) i')
       = (EndpointUrl a, UI_CONNECTOR)
         :: (EndpointUrl b, UI_CONNECTOR_WSS) :: flex.
Proof.
  intros create result i a b Ha Hb Hua Hub. cbn zeta.
  destruct (ro_fields_after_wire result i) as [Hu [Hw [_ [Hd _]]]].
  cbn zeta in Hu, Hw, Hd. rewrite Ha in Hu. rewrite Hb in Hw.
  split.
  - rewrite Hd.
    assert (Hp : present UI_CONNECTOR (snapshot_of result) = true).
    { clear - Ha. unfold present.
      induction (snapshot_of result) as [|csp rest IH];
        [discriminate Ha|].
      cbn [ReadonlyForm.last_named existsb] in *.
      destruct (ReadonlyForm.last_named UI_CONNECTOR rest);
        [rewrite (IH Ha); apply orb_true_r|].
      destruct (DeveloperName csp =? UI_CONNECTOR); [reflexivity|].
      discriminate Ha. }
    rewrite Hp. cbn. now rewrite andb_false_r.
  - destruct (ro_requests_and_toasts create
                (state_after (ReadonlyForm.wiredResources result) i))
      as [Hreq _].
    + now rewrite Hu.
    + now rewrite Hw.
    + cbn zeta in Hreq. rewrite Hreq, Hu, Hw. eexists. reflexivity.
Qed.

Lemma ro_prefilled_sites_witness :
  ReadonlyForm.displayCreateBtn
    (state_after (ReadonlyForm.wiredResources (wire [csp_ui; csp_wss]))
       ReadonlyForm.initial)
  = false.
Proof.
  exact (proj1 (ro_prefilled_sites_are_created_again (fun _ _ => Resolved)
                  (wire [csp_ui; csp_wss]) ReadonlyForm.initial
                  csp_ui csp_wss eq_refl eq_refl
                  ltac:(discriminate) ltac:(discriminate))).
Defined.

(** ** [Wizard]: the Next button *)

Example wizard_next : Wizard.onNext (Wizard.mkInstance (Wizard.js "1"))
                      = Some (Wizard.mkInstance (Wizard.js "2")).
Proof. reflexivity. Qed.

Example wizard_next_text :
  Wizard.onNext (Wizard.mkInstance (Wizard.js " 12px"))
  = Some (Wizard.mkInstance (Wizard.js "13")).
Proof. reflexivity. Qed.

Example wizard_next_no_break_space :
  Wizard.onNext (Wizard.mkInstance (160%N :: Wizard.js "1"))
  = Some (Wizard.mkInstance (Wizard.js "2")).
Proof. reflexivity. Qed.

Example wizard_next_negative :
  Wizard.onNext (Wizard.mkInstance (Wizard.js "-1"))
  = Some (Wizard.mkInstance (Wizard.js "0")).
Proof. reflexivity. Qed.

Example wizard_next_nan :
  Wizard.onNext (Wizard.mkInstance (Wizard.js "tab"))
  = Some (Wizard.mkInstance (Wizard.js "NaN")).
Proof. reflexivity. Qed.

Lemma wizard_js_app s t :
  Wizard.js (s ++ t) = (Wizard.js s ++ Wizard.js t)%list.
Proof. induction s as [|a s IH]; [reflexivity|]. cbn. now rewrite IH. Qed.

Lemma wizard_text_of_js s : Wizard.text_of (Wizard.js s) = s.
Proof.
  induction s as [|a s IH]; [reflexivity|].
  cbn. now rewrite Ascii.ascii_N_embedding, IH.
Qed.

Lemma wizard_trim_white_space ws : forall s,
  Wizard.trim_start ws = [] ->
  Wizard.trim_start (ws ++ s)%list = Wizard.trim_start s.
Proof.
  induction ws as [|a ws IH]; intros s H; [reflexivity|].
  cbn [Wizard.trim_start app] in *.
  destruct (Wizard.is_white_space a); [now apply IH|discriminate H].
Qed.

Lemma wizard_digits_of_uint d suffix :
  Wizard.digits_prefix suffix = [] ->
  Wizard.digits_prefix
    (Wizard.js (DecimalString.NilEmpty.string_of_uint d) ++ suffix)%list
  = Wizard.js (DecimalString.NilEmpty.string_of_uint d).
Proof.
  intros Hs. induction d as [|d IH|d IH|d IH|d IH|d IH|d IH|d IH|d IH|d IH|d IH];
    [exact Hs|..];
    cbn [DecimalString.NilEmpty.string_of_uint Wizard.js app
         Wizard.digits_prefix];
    change (Wizard.is_digit _) with true; cbv iota; now rewrite IH.
Qed.

Lemma wizard_first_digit d :
  d <> Decimal.Nil ->
  exists a r,
    Wizard.js (DecimalString.NilEmpty.string_of_uint d) = a :: r
    /\ Wizard.is_digit a = true
    /\ Wizard.is_white_space a = false
    /\ (a =? Wizard.minus_sign)%N = false
    /\ (a =? Wizard.plus_sign)%N = false.
Proof.
  intros Hd. destruct d; [congruence|..];
    cbn [DecimalString.NilEmpty.string_of_uint Wizard.js];
    eexists; eexists; (split; [reflexivity|]); now vm_compute.
Qed.

Lemma wizard_digits_value sign d suffix :
  d <> Decimal.Nil ->
  Wizard.digits_prefix suffix = [] ->
  match Wizard.digits_prefix
          (Wizard.js (DecimalString.NilEmpty.string_of_uint d) ++ suffix)%list
  with
  | [] => None
  | u :: rest =>
      match DecimalString.NilEmpty.uint_of_string
              (Wizard.text_of (u :: rest)) with
      | Some d' => Some (sign * Z.of_uint d')%Z
      | None => None
      end
  end = Some (sign * Z.of_uint d)%Z.
Proof.
  intros Hd Hs. rewrite wizard_digits_of_uint by assumption.
  destruct (wizard_first_digit d Hd) as [a [r [Hstr _]]].
  rewrite Hstr, <- Hstr.
  now rewrite wizard_text_of_js, DecimalString.NilEmpty.usu.
Qed.

Lemma wizard_parse_unsigned d suffix :
  d <> Decimal.Nil ->
  Wizard.digits_prefix suffix = [] ->
  Wizard.parseInt
    (Wizard.js (DecimalString.NilEmpty.string_of_uint d) ++ suffix)%list
  = Some (Z.of_uint d).
Proof.
  intros Hd Hs.
  destruct (wizard_first_digit d Hd) as [a [r [Hstr [Hdig [Hws [Hm Hp]]]]]].
  pose proof (wizard_digits_value 1 d suffix Hd Hs) as Hval.
  unfold Wizard.parseInt. rewrite Hstr in *.
  cbn [app Wizard.trim_start] in *. rewrite Hws, Hm, Hp.
  rewrite Hval. f_equal; lia.
Qed.

Lemma wizard_parse_negative d suffix :
  d <> Decimal.Nil ->
  Wizard.digits_prefix suffix = [] ->
  Wizard.parseInt
    (Wizard.minus_sign
       :: Wizard.js (DecimalString.NilEmpty.string_of_uint d) ++ suffix)%list
  = Some (- Z.of_uint d)%Z.
Proof.
  intros Hd Hs.
  pose proof (wizard_digits_value (-1) d suffix Hd Hs) as Hval.
  unfold Wizard.parseInt. cbn [Wizard.trim_start].
  change (Wizard.is_white_space Wizard.minus_sign) with false. cbv iota.
  rewrite N.eqb_refl. rewrite Hval. f_equal; lia.
Qed.

Lemma wizard_parse_toString z ws suffix :
  Wizard.trim_start ws = [] ->
  Wizard.digits_prefix suffix = [] ->
  Wizard.parseInt (ws ++ Wizard.toString z ++ suffix)%list = Some z.
Proof.
  intros Hws Hs.
  assert (Htrim : forall s,
    Wizard.parseInt (ws ++ s)%list = Wizard.parseInt s).
  { intros s. unfold Wizard.parseInt.
    rewrite wizard_trim_white_space by assumption. reflexivity. }
  rewrite Htrim. unfold Wizard.toString.
  destruct z as [|p|p]; cbn [Z.to_int DecimalString.NilEmpty.string_of_int].
  - rewrite wizard_parse_unsigned by (assumption || discriminate).
    reflexivity.
  - rewrite wizard_parse_unsigned
      by (assumption || apply DecimalPos.Unsigned.to_uint_nonnil).
    unfold Z.of_uint. now rewrite DecimalPos.Unsigned.of_to.
  - cbn [Wizard.js app].
    change (Ascii.N_of_ascii _) with Wizard.minus_sign.
    rewrite wizard_parse_negative
      by (assumption || apply DecimalPos.Unsigned.to_uint_nonnil).
    unfold Z.of_uint. now rewrite DecimalPos.Unsigned.of_to.
Qed.

Lemma wizard_onNext_parsed : forall z ws suffix,
  (Z.abs z < 2 ^ 53)%Z ->
  Wizard.trim_start ws = [] ->
  Wizard.digits_prefix suffix = [] ->
  Wizard.onNext
    (Wizard.mkInstance (ws ++ Wizard.toString z ++ suffix)%list)
  = Some (Wizard.mkInstance (Wizard.toString (z + 1))).
Proof.
  intros z ws suffix Hz Hws Hs. unfold Wizard.onNext.
  cbn [Wizard.selectedTab]. rewrite wizard_parse_toString by assumption.
  apply Z.ltb_lt in Hz. now rewrite Hz.
Qed.

(** [onNext] moves to the next number: when the selected tab reads as an
    integer below 2^53 in absolute value, written in decimal, possibly
    after white space and before text that does not start with a digit,
    the selected tab becomes that integer plus one, written in decimal
    with nothing around it. *)
Theorem wizard_next_adds_one : forall z ws suffix,
  (Z.abs z < 2 ^ 53)%Z ->
  Wizard.trim_start ws = [] ->
  Wizard.digits_prefix suffix = [] ->
  Wizard.onNext
    (Wizard.mkInstance (ws ++ Wizard.toString z ++ suffix)%list)
  = Some (Wizard.mkInstance (Wizard.toString (z + 1))).
Proof. exact wizard_onNext_parsed. Qed.

Lemma wizard_next_adds_one_witness :
  Wizard.onNext (Wizard.mkInstance (Wizard.js " 41 of 99"))
  = Some (Wizard.mkInstance (Wizard.js "42")).
Proof.
  exact (wizard_next_adds_one 41 (Wizard.js " ") (Wizard.js " of 99")
           eq_refl eq_refl eq_refl).
Defined.

(** From the first tab, pressing Next [n] times selects tab [n + 1]. *)
Theorem wizard_next_counts_tabs : forall n,
  (Z.of_nat n < 2 ^ 53)%Z ->
  Wizard.onNext_times n Wizard.initial
  = Some (Wizard.mkInstance (Wizard.toString (Z.of_nat n + 1))).
Proof.
  assert (Hgen : forall n z,
    (0 <= z)%Z -> (z + Z.of_nat n <= 2 ^ 53)%Z ->
    Wizard.onNext_times n (Wizard.mkInstance (Wizard.toString z))
    = Some (Wizard.mkInstance (Wizard.toString (z + Z.of_nat n)))).
  { induction n as [|n IH]; intros z Hz Hn.
    - cbn. now rewrite Z.add_0_r.
    - cbn [Wizard.onNext_times].
      pose proof (wizard_onNext_parsed z [] []) as Hnext.
      cbn [app] in Hnext.
      change (2 ^ 53)%Z with 9007199254740992%Z in *.
      rewrite app_nil_r in Hnext. rewrite Hnext by (reflexivity || lia).
      rewrite IH by lia.
      now replace (z + 1 + Z.of_nat n)%Z with (z + Z.of_nat (S n))%Z by lia. }
  intros n Hn.
  change Wizard.initial with (Wizard.mkInstance (Wizard.toString 1)).
  change (2 ^ 53)%Z with 9007199254740992%Z in *.
  rewrite Hgen by lia.
  now replace (1 + Z.of_nat n)%Z with (Z.of_nat n + 1)%Z by lia.
Qed.

Lemma wizard_next_counts_tabs_witness :
  Wizard.onNext_times 3 Wizard.initial
  = Some (Wizard.mkInstance (Wizard.js "4")).
Proof.
  exact (wizard_next_counts_tabs 3 eq_refl).
Defined.

(** When the selected tab does not read as a number, [onNext] selects
    the tab named NaN, and every later [onNext] stays there. *)
Theorem wizard_next_stuck_on_nan : forall this_ n,
  Wizard.parseInt (Wizard.selectedTab this_) = None ->
  Wizard.onNext_times (S n) this_
  = Some (Wizard.mkInstance (Wizard.js "NaN")).
Proof.
  intros this_ n H. cbn [Wizard.onNext_times].
  unfold Wizard.onNext at 1. rewrite H.
  induction n as [|n IH]; [reflexivity|].
  cbn [Wizard.onNext_times].
  change (Wizard.onNext (Wizard.mkInstance (Wizard.js "NaN")))
    with (Some (Wizard.mkInstance (Wizard.js "NaN"))).
  exact IH.
Qed.

Lemma wizard_next_stuck_on_nan_witness :
  Wizard.onNext_times 2 (Wizard.mkInstance [])
  = Some (Wizard.mkInstance (Wizard.js "NaN")).
Proof.
  exact (wizard_next_stuck_on_nan (Wizard.mkInstance []) 1 eq_refl).
Defined.
